(** * user-control.js: the locked JSON record store

    A shallow embedding of [comLock], [lerUsuarios] and [salvarUsuarios]
    from [src/user-control.js], and the properties of the store that the
    specification states about them.

    The module is written against the Node.js runtime: [fs.readFile],
    [fs.writeFile], [lockfile.lock], [JSON.parse], [JSON.stringify] and the
    [console].  The file system, the lock and the console are modelled as an
    explicit state with an environment that decides which primitive fails;
    the JSON codec and the numeric coercion of the language are an
    interface ([Runtime]) the embedding is parametric in.  A small
    executable instance of that interface ([Mini]) runs the module on
    concrete files and is shown to satisfy the codec law that the round trip
    of the store relies on. *)

From Stdlib Require Import String Ascii List ZArith NArith QArith Bool Lia.
Import ListNotations.
Local Open Scope Z_scope.
Set Warnings "-register-all,-notation-for-abbreviation".

(* ================================================================== *)
(** ** JavaScript strings *)

(** A JavaScript string is a sequence of UTF-16 code units. *)
Definition jsstring := list N.

(** Code units of an ASCII literal. *)
Definition js (s : string) : jsstring :=
  map N_of_ascii (list_ascii_of_string s).

Fixpoint jsstring_eqb (a b : jsstring) : bool :=
  match a, b with
  | [], [] => true
  | x :: a', y :: b' => N.eqb x y && jsstring_eqb a' b'
  | _, _ => false
  end.

(** [WhiteSpace] and [LineTerminator] of ECMAScript, the code units that
    [String.prototype.trim] strips: TAB, LF, VT, FF, CR, SP, NBSP, the
    space separators U+1680, U+2000..U+200A, U+202F, U+205F, U+3000, the line
    and paragraph separators U+2028, U+2029 and the byte order mark. *)
Definition is_whitespace (c : N) : bool :=
  ((9 <=? c) && (c <=? 13) || (c =? 32) || (c =? 160) || (c =? 5760)
   || (8192 <=? c) && (c <=? 8202) || (c =? 8232) || (c =? 8233)
   || (c =? 8239) || (c =? 8287) || (c =? 12288) || (c =? 65279))%N.

Fixpoint trimStart (s : jsstring) : jsstring :=
  match s with
  | c :: s' => if is_whitespace c then trimStart s' else s
  | [] => []
  end.

Definition trimEnd (s : jsstring) : jsstring := rev (trimStart (rev s)).

(** [dados.trim()] *)
Definition trim (s : jsstring) : jsstring := trimEnd (trimStart s).

(** Content made of white space only (the empty content included). *)
Definition whitespace_only (s : jsstring) : Prop :=
  Forall (fun c => is_whitespace c = true) s.

(* ================================================================== *)
(** ** Values *)

(** What [JSON.parse] can return: the JSON fragment of the JavaScript
    values.  [number] is the type of IEEE doubles, which the store never
    inspects.  An object keeps its members in property order. *)
Inductive value (number : Type) : Type :=
| JNull
| JBool (b : bool)
| JNum (x : number)
| JStr (s : jsstring)
| JArr (elems : list (value number))
| JObj (members : list (jsstring * value number)).

Arguments JNull {number}.
Arguments JBool {number} b.
Arguments JNum {number} x.
Arguments JStr {number} s.
Arguments JArr {number} elems.
Arguments JObj {number} members.

(** The mathematical value of a JavaScript number. *)
Inductive ExtNum : Type :=
| NaN
| NegInfinity
| Finite (q : Q)
| PosInfinity.

(** The part of the language runtime the module calls and that is not
    modelled here: the JSON codec and [ToNumber].  [JSON_parse] is [None]
    where [JSON.parse] throws a [SyntaxError]; [JSON_stringify v space] is
    [JSON.stringify(v, null, space)].  [ToNumber] is [None] where the
    conversion throws a [TypeError]: an object or an array is first
    converted to a primitive through its [valueOf] and [toString], and a
    parsed object whose own member [toString] hides the inherited method
    has no primitive ([{"toString": 1}], or an array that holds one). *)
Class Runtime (number : Type) : Type := {
  JSON_parse : jsstring -> option (value number);
  JSON_stringify : value number -> Z -> jsstring;
  ToNumber : value number -> option ExtNum
}.

(** Errors that can be thrown. *)
Inductive exn : Type :=
| SyntaxError                (* JSON.parse *)
| TypeError                  (* property of null, call of a non-function *)
| SystemError (code : string). (* fs and lock errors: EACCES, ELOCKED, ... *)

(** How a call ends. *)
Inductive completion (A : Type) : Type :=
| Normal (a : A)
| Throw (e : exn).

Arguments Normal {A} a.
Arguments Throw {A} e.

(** The result of reading a property: [undefined], a number computed by the
    runtime (the length of an array or a string), or a stored member. *)
Inductive property (number : Type) : Type :=
| PUndefined
| PNumber (n : Z)
| PValue (v : value number).

Arguments PUndefined {number}.
Arguments PNumber {number} n.
Arguments PValue {number} v.

(* ================================================================== *)
(** ** State and environment *)

Inductive level : Type := log | warn | error.

(** The messages the module prints. *)
Inductive message (number : Type) : Type :=
| LendoUsuarios                       (* "Lendo usuarios.json..." *)
| ArquivoVazio                        (* "usuarios.json está vazio. ..." *)
| NenhumLimite                        (* "Nenhum limite aplicado. ..." *)
| NumeroInvalido                      (* "Número inválido fornecido. ..." *)
| Lidos (len : property number)       (* `Lidos ${arr_limited.length} ...` *)
| ErroAoLer (err : exn)               (* "Erro ao ler usuarios.json:" *)
| AtualizadoComSucesso                (* "usuarios.json atualizado ..." *)
| ErroAoSalvar (err : exn)            (* "Erro ao salvar usuarios.json:" *)
| ErroAoLiberar (err : exn).          (* "Erro ao liberar lock ..." *)

Arguments LendoUsuarios {number}.
Arguments ArquivoVazio {number}.
Arguments NenhumLimite {number}.
Arguments NumeroInvalido {number}.
Arguments Lidos {number} len.
Arguments ErroAoLer {number} err.
Arguments AtualizadoComSucesso {number}.
Arguments ErroAoSalvar {number} err.
Arguments ErroAoLiberar {number} err.

(** What happened to the lock of [usuarios.json]. *)
Inductive lock_event : Type :=
| Acquired
| Released
| ReleaseFailed (err : exn).

(** The state the module acts on: the text of [usuarios.json] (at
    [filePath]), the console output and the history of the lock, oldest
    entry first.  The file is there: [lockfile.lock] resolves its path
    before the first attempt and rejects when there is no file, a case the
    state leaves out. *)
Record State (number : Type) : Type := mkState {
  arquivo : jsstring;
  console : list (level * message number);
  lock_history : list lock_event
}.

Arguments mkState {number}.
Arguments arquivo {number}.
Arguments console {number}.
Arguments lock_history {number}.

(** What the environment does during one call.  [lock_attempts] says, for
    each successive attempt of [lockfile.lock], whether the lock is held by
    somebody else; attempts past the end of the list find it free.  The
    embedding has no clock: the delays between the attempts ([factor],
    [minTimeout], [maxTimeout]) and the age after which a held lock counts
    as abandoned ([stale]) are the environment's, which answers "held" for a
    lock that is held and not stale.  A failing [fs.writeFile] leaves
    [residue] in the file. *)
Record Env : Type := mkEnv {
  lock_attempts : list bool;
  readFile_error : option exn;
  writeFile_error : option (exn * jsstring);
  release_error : option exn
}.

(** An environment in which nothing fails. *)
Definition calm : Env := mkEnv [] None None None.

(* ================================================================== *)
(** ** The monad of the embedding: state and exceptions *)

Definition M (number A : Type) : Type :=
  State number -> completion A * State number.

Definition ret {number A} (a : A) : M number A := fun st => (Normal a, st).

Definition throw {number A} (e : exn) : M number A := fun st => (Throw e, st).

Definition bind {number A B} (m : M number A) (k : A -> M number B)
  : M number B :=
  fun st =>
    match m st with
    | (Normal a, st') => k a st'
    | (Throw e, st') => (Throw e, st')
    end.

(** [try { m } catch (err) { handler err }] *)
Definition try_catch {number A} (m : M number A) (handler : exn -> M number A)
  : M number A :=
  fun st =>
    match m st with
    | (Normal a, st') => (Normal a, st')
    | (Throw e, st') => handler e st'
    end.

Declare Scope js_scope.
Delimit Scope js_scope with js_m.
Notation "x <- m ;; k" := (bind m (fun x => k))
  (at level 61, m at next level, right associativity) : js_scope.
Notation "m ;; k" := (bind m (fun _ => k))
  (at level 61, right associativity) : js_scope.
Local Open Scope js_scope.

Section Embedding.

Context {number : Type} `{RT : Runtime number}.

Notation value := (value number).
Notation State := (State number).
Notation M := (M number).

(** [console.log], [console.warn], [console.error] *)
Definition console_print (lv : level) (msg : message number) : M unit :=
  fun st =>
    (Normal tt,
     mkState (arquivo st) (console st ++ [(lv, msg)]) (lock_history st)).

Definition record_lock (ev : lock_event) : M unit :=
  fun st =>
    (Normal tt,
     mkState (arquivo st) (console st) (lock_history st ++ [ev])).

(* ---------------------------------------------------------------- *)
(** *** Primitives of the runtime the module uses *)

(** [fs.readFile(filePath, "utf-8")] *)
Definition fs_readFile (amb : Env) : M jsstring :=
  fun st =>
    match readFile_error amb with
    | Some e => (Throw e, st)
    | None => (Normal (arquivo st), st)
    end.

(** [fs.writeFile(filePath, json, "utf-8")]: the file is replaced by
    [json]. *)
Definition fs_writeFile (amb : Env) (json : jsstring) : M unit :=
  fun st =>
    match writeFile_error amb with
    | Some (e, residue) =>
        (Throw e, mkState residue (console st) (lock_history st))
    | None => (Normal tt, mkState json (console st) (lock_history st))
    end.

(** [retries: 5] of the options given to [lockfile.lock]. *)
Definition retries : nat := 5.

(** One attempt and up to [remaining] more. *)
Fixpoint acquire (remaining : nat) (attempts : list bool) : bool :=
  match attempts with
  | [] => true
  | false :: _ => true
  | true :: later =>
      match remaining with
      | O => false
      | S r => acquire r later
      end
  end.

(** The lock is taken, at the first attempt or at a retry. *)
Definition acquires (amb : Env) : Prop :=
  acquire retries (lock_attempts amb) = true.

(** The lock could not be taken: every attempt found it held. *)
Definition exhausted (amb : Env) : Prop :=
  acquire retries (lock_attempts amb) = false.

Definition ELOCKED : exn := SystemError "ELOCKED".

(** The [release] function [lockfile.lock] resolves to. *)
Definition release_fn (amb : Env) : M unit :=
  match release_error amb with
  | Some e => record_lock (ReleaseFailed e) ;; throw e
  | None => record_lock Released
  end.

(** [lockfile.lock(filePath, { retries: {...}, stale: 5000 })] *)
Definition lockfile_lock (amb : Env) : M (M unit) :=
  if acquire retries (lock_attempts amb)
  then record_lock Acquired ;; ret (release_fn amb)
  else throw ELOCKED.

(** The member [key] of an object, if it has one (an object [JSON.parse]
    built has no two members of the same name). *)
Definition get_member (key : jsstring) (members : list (jsstring * value))
  : option value :=
  match find (fun kv => jsstring_eqb (fst kv) key) members with
  | Some kv => Some (snd kv)
  | None => None
  end.

(** [arr.length] *)
Definition get_length (v : value) : M (property number) :=
  match v with
  | JNull => throw TypeError
  | JBool _ => ret PUndefined
  | JNum _ => ret PUndefined
  | JStr s => ret (PNumber (Z.of_nat (length s)))
  | JArr elems => ret (PNumber (Z.of_nat (length elems)))
  | JObj members =>
      match get_member (js "length") members with
      | Some x => ret (PValue x)
      | None => ret PUndefined
      end
  end.

(** The number a property read is compared as, if it has one. *)
Definition numeric (p : property number) : option ExtNum :=
  match p with
  | PUndefined => Some NaN
  | PNumber n => Some (Finite (inject_Z n))
  | PValue v => ToNumber v
  end.

(** The conversion of a property read to a primitive, as a comparison and
    a template literal perform it: it throws when the value has none.  The
    comparison goes on to the number; the template goes on to the string,
    which the console keeps as the property itself.  Both conversions try
    the same two methods, [valueOf] and [toString], and throw when neither
    gives a primitive. *)
Definition convert (p : property number) : M ExtNum :=
  match numeric p with
  | Some x => ret x
  | None => throw TypeError
  end.

(** [num <= x] for an integer [num] *)
Definition js_le (num : Z) (x : ExtNum) : bool :=
  match x with
  | NaN => false
  | NegInfinity => false
  | Finite q => Qle_bool (inject_Z num) q
  | PosInfinity => true
  end.

(** [num > x] for an integer [num] *)
Definition js_gt (num : Z) (x : ExtNum) : bool :=
  match x with
  | NaN => false
  | NegInfinity => true
  | Finite q => negb (Qle_bool (inject_Z num) q)
  | PosInfinity => false
  end.

(** The first [fim] items of a sequence of [len] items, as [slice(0, fim)]
    counts them: a negative [fim] counts from the end. *)
Definition slice_end (len fim : Z) : nat :=
  Z.to_nat (if fim <? 0 then Z.max (len + fim) 0 else Z.min fim len).

(** [arr.slice(0, fim)]: arrays and strings have a [slice]; on anything
    else the call is a call of [undefined]. *)
Definition slice0 (arr : value) (fim : Z) : M value :=
  match arr with
  | JArr elems =>
      ret (JArr (firstn (slice_end (Z.of_nat (length elems)) fim) elems))
  | JStr s => ret (JStr (firstn (slice_end (Z.of_nat (length s)) fim) s))
  | _ => throw TypeError
  end.

(* ---------------------------------------------------------------- *)
(** *** The module *)

(** [comLock(fn)]: when [lockfile.lock] throws, [release] is still
    undefined and the [finally] block does nothing; otherwise [fn] runs and
    [release] is called whatever it did, an error of [release] being caught
    and printed, so that the completion of [fn] is the completion of the
    call. *)
Definition comLock {A} (amb : Env) (fn : M A) : M A :=
  fun st =>
    match lockfile_lock amb st with
    | (Throw e, st1) => (Throw e, st1)
    | (Normal release, st1) =>
        let (r, st2) := fn st1 in
        let (_, st3) :=
          try_catch release
            (fun err => console_print error (ErroAoLiberar err)) st2 in
        (r, st3)
    end.

(** The end of the [try] block of [lerUsuarios], once [arr_limited] is
    set. *)
Definition retornar (arr_limited : value) : M value :=
  len <- get_length arr_limited ;;
  _ <- convert len ;;
  console_print log (Lidos len) ;;
  ret arr_limited.

(** The selection of [lerUsuarios], from [let arr_limited = []] to the
    [return]. *)
Definition limitar (num : Z) (arr : value) : M value :=
  c1 <- (if 0 <? num
         then (len <- get_length arr ;;
               x <- convert len ;;
               ret (js_le num x))
         else ret false) ;;
  if (c1 : bool) then
    arr_limited <- slice0 arr num ;;
    retornar arr_limited
  else
    len <- get_length arr ;;
    x <- convert len ;;
    if js_gt num x then
      retornar arr
    else if num =? 0 then
      console_print log NenhumLimite ;;
      retornar arr
    else
      console_print warn NumeroInvalido ;;
      ret (JArr []).

(** The function [lerUsuarios] runs under the lock. *)
Definition lerUsuarios_fn (amb : Env) (num : Z) : M value :=
  try_catch
    (dados <- fs_readFile amb ;;
     console_print log LendoUsuarios ;;
     let texto := trim dados in
     match texto with
     | [] =>
         console_print warn ArquivoVazio ;;
         ret (JArr [])
     | _ :: _ =>
         match JSON_parse texto with
         | None => throw SyntaxError
         | Some arr => limitar num arr
         end
     end)
    (fun err =>
       console_print error (ErroAoLer err) ;;
       ret (JArr [])).

Definition lerUsuarios (amb : Env) (num : Z) : M value :=
  comLock amb (lerUsuarios_fn amb num).

(** The function [salvarUsuarios] runs under the lock; it returns
    [undefined]. *)
Definition salvarUsuarios_fn (amb : Env) (usuarios : value) : M unit :=
  try_catch
    (let json := JSON_stringify usuarios 2 in
     fs_writeFile amb json ;;
     console_print log AtualizadoComSucesso)
    (fun err => console_print error (ErroAoSalvar err)).

Definition salvarUsuarios (amb : Env) (usuarios : value) : M unit :=
  comLock amb (salvarUsuarios_fn amb usuarios).

(* ---------------------------------------------------------------- *)
(** *** Vocabulary of the properties *)

(** The text [content] of the file is not blank and [JSON.parse] reads
    [v] from what [trim] leaves of it. *)
Definition parses_to (content : jsstring) (v : value) : Prop :=
  trim content <> [] /\ JSON_parse (trim content) = Some v.

(** The text [content] is not blank and [JSON.parse] throws on what [trim]
    leaves of it. *)
Definition malformed (content : jsstring) : Prop :=
  trim content <> [] /\ JSON_parse (trim content) = None.

(** A value whose [length] is [undefined]: a boolean, a number, or an
    object with no member of that name. *)
Definition lengthless (v : value) : Prop :=
  match v with
  | JBool _ | JNum _ => True
  | JObj members => get_member (js "length") members = None
  | JNull | JStr _ | JArr _ => False
  end.

(** The event [release] leaves in the history of the lock, and what its
    failure prints. *)
Definition release_event (amb : Env) : lock_event :=
  match release_error amb with
  | Some e => ReleaseFailed e
  | None => Released
  end.

Definition release_output (amb : Env) : list (level * message number) :=
  match release_error amb with
  | Some e => [(error, ErroAoLiberar e)]
  | None => []
  end.

(** The state in which the wrapped function starts. *)
Definition locked (st : State) : State :=
  mkState (arquivo st) (console st) (lock_history st ++ [Acquired]).

(** What [release] and its [catch] do to the state the function left. *)
Definition unlocked (amb : Env) (st : State) : State :=
  mkState (arquivo st) (console st ++ release_output amb)
    (lock_history st ++ [release_event amb]).

(** How many times [release] was called. *)
Fixpoint releases (history : list lock_event) : nat :=
  match history with
  | [] => 0
  | Acquired :: later => releases later
  | (Released | ReleaseFailed _) :: later => S (releases later)
  end.

End Embedding.

(* ================================================================== *)
(** ** A small executable runtime

    An instance of [Runtime] that runs: numbers are the integers, a string
    literal escapes the quote and the backslash only.  The theorems below
    hold for every runtime; this one evaluates them on concrete files. *)

Module Mini.

(** The decimal digits of [n], most significant first, before [acc]. *)
Fixpoint digits_of (fuel : nat) (n : Z) (acc : jsstring) : jsstring :=
  match fuel with
  | O => acc
  | S fuel' =>
      if n <? 10 then Z.to_N (48 + n) :: acc
      else digits_of fuel' (n / 10) (Z.to_N (48 + n mod 10) :: acc)
  end.

Definition unsigned (n : Z) : jsstring :=
  digits_of (S (Z.to_nat (Z.log2 n))) n [].

Definition digits (z : Z) : jsstring :=
  if z <? 0 then 45%N :: unsigned (- z) else unsigned z.

Definition spaces (n : nat) : jsstring := repeat 32%N n.

Fixpoint join (sep : jsstring) (parts : list jsstring) : jsstring :=
  match parts with
  | [] => []
  | [p] => p
  | p :: rest => p ++ sep ++ join sep rest
  end.

Fixpoint escape (s : jsstring) : jsstring :=
  match s with
  | [] => []
  | c :: s' =>
      if ((c =? 34) || (c =? 92))%N then 92%N :: c :: escape s'
      else c :: escape s'
  end.

Definition quote (s : jsstring) : jsstring := 34%N :: escape s ++ [34%N].

(** A line break and [n] spaces, when there is a [gap]. *)
Definition brk (gap n : nat) : jsstring :=
  match gap with
  | O => []
  | S _ => 10%N :: spaces n
  end.

(** The items of an array or an object, one per line when there is a
    [gap]. *)
Definition wrap (gap indent : nat) (opening closing : N)
  (items : list jsstring) : jsstring :=
  match items with
  | [] => [opening; closing]
  | _ :: _ =>
      opening :: brk gap (indent + gap)
        ++ join (44%N :: brk gap (indent + gap)) items
        ++ brk gap indent ++ [closing]
  end.

Definition colon (gap : nat) : jsstring :=
  58%N :: match gap with O => [] | S _ => [32%N] end.

Fixpoint stringify_at (gap indent : nat) (v : value Z) : jsstring :=
  match v with
  | JNull => js "null"
  | JBool true => js "true"
  | JBool false => js "false"
  | JNum z => digits z
  | JStr s => quote s
  | JArr elems =>
      wrap gap indent 91%N 93%N (map (stringify_at gap (indent + gap)) elems)
  | JObj members =>
      wrap gap indent 123%N 125%N
        (map (fun kv =>
                match kv with
                | (k, x) =>
                    quote k ++ colon gap ++ stringify_at gap (indent + gap) x
                end) members)
  end.

(** [JSON.stringify(v, null, space)] *)
Definition stringify (v : value Z) (space : Z) : jsstring :=
  stringify_at (Z.to_nat (Z.min space 10)) 0 v.

(** The white space of the JSON grammar. *)
Definition json_ws (c : N) : bool :=
  ((c =? 32) || (c =? 9) || (c =? 10) || (c =? 13))%N.

Fixpoint skip_ws (s : jsstring) : jsstring :=
  match s with
  | c :: s' => if json_ws c then skip_ws s' else s
  | [] => []
  end.

Definition is_digit (c : N) : bool := ((48 <=? c) && (c <=? 57))%N.

Fixpoint take_digits (s : jsstring) : jsstring * jsstring :=
  match s with
  | c :: s' =>
      if is_digit c
      then let (ds, rest) := take_digits s' in (c :: ds, rest)
      else ([], s)
  | [] => ([], [])
  end.

Definition natural (ds : jsstring) : Z :=
  fold_left (fun acc c => 10 * acc + (Z.of_N c - 48)) ds 0.

(** [0], or digits that do not start with [0]. *)
Definition parse_unsigned (s : jsstring) : option (Z * jsstring) :=
  match s with
  | c :: rest =>
      if (c =? 48)%N then Some (0, rest)
      else
        match take_digits s with
        | ([], _) => None
        | (ds, rest') => Some (natural ds, rest')
        end
  | [] => None
  end.

(** An integer literal: an optional sign and an unsigned one. *)
Definition parse_number (s : jsstring) : option (Z * jsstring) :=
  match s with
  | c :: s' =>
      if (c =? 45)%N
      then match parse_unsigned s' with
           | Some (n, rest) => Some (- n, rest)
           | None => None
           end
      else parse_unsigned s
  | [] => None
  end.

(** The characters of a string literal, after its opening quote. *)
Fixpoint parse_chars (s : jsstring) : option (jsstring * jsstring) :=
  match s with
  | [] => None
  | c :: s' =>
      if (c =? 34)%N then Some ([], s')
      else if (c =? 92)%N then
        match s' with
        | d :: s'' =>
            if ((d =? 34) || (d =? 92))%N
            then match parse_chars s'' with
                 | Some (cs, rest) => Some (d :: cs, rest)
                 | None => None
                 end
            else None
        | [] => None
        end
      else if (c <? 32)%N then None
      else match parse_chars s' with
           | Some (cs, rest) => Some (c :: cs, rest)
           | None => None
           end
  end.

(** [s] without the prefix [w], when it starts with it. *)
Fixpoint strip (w s : jsstring) : option jsstring :=
  match w, s with
  | [], _ => Some s
  | a :: w', b :: s' => if (a =? b)%N then strip w' s' else None
  | _ :: _, [] => None
  end.

Definition literal (word : string) (v : value Z) (s : jsstring)
  : option (value Z * jsstring) :=
  match strip (js word) s with
  | Some rest => Some (v, rest)
  | None => None
  end.

Fixpoint parse_value (fuel : nat) (s : jsstring)
  : option (value Z * jsstring) :=
  match fuel with
  | O => None
  | S fuel' =>
      match skip_ws s with
      | [] => None
      | c :: s' =>
          if (c =? 110)%N then literal "null" JNull (c :: s')
          else if (c =? 116)%N then literal "true" (JBool true) (c :: s')
          else if (c =? 102)%N then literal "false" (JBool false) (c :: s')
          else if (c =? 34)%N then
            match parse_chars s' with
            | Some (cs, rest) => Some (JStr cs, rest)
            | None => None
            end
          else if (c =? 91)%N then
            match skip_ws s' with
            | [] => None
            | d :: rest =>
                if (d =? 93)%N then Some (JArr [], rest)
                else
                  match parse_elems fuel' s' with
                  | Some (elems, rest') => Some (JArr elems, rest')
                  | None => None
                  end
            end
          else if (c =? 123)%N then
            match skip_ws s' with
            | [] => None
            | d :: rest =>
                if (d =? 125)%N then Some (JObj [], rest)
                else
                  match parse_members fuel' s' with
                  | Some (members, rest') => Some (JObj members, rest')
                  | None => None
                  end
            end
          else
            match parse_number (c :: s') with
            | Some (z, rest) => Some (JNum z, rest)
            | None => None
            end
      end
  end
with parse_elems (fuel : nat) (s : jsstring)
  : option (list (value Z) * jsstring) :=
  match fuel with
  | O => None
  | S fuel' =>
      match parse_value fuel' s with
      | Some (x, rest) =>
          match skip_ws rest with
          | [] => None
          | d :: rest' =>
              if (d =? 93)%N then Some ([x], rest')
              else if (d =? 44)%N then
                match parse_elems fuel' rest' with
                | Some (xs, rest'') => Some (x :: xs, rest'')
                | None => None
                end
              else None
          end
      | None => None
      end
  end
with parse_members (fuel : nat) (s : jsstring)
  : option (list (jsstring * value Z) * jsstring) :=
  match fuel with
  | O => None
  | S fuel' =>
      match skip_ws s with
      | [] => None
      | c :: s' =>
          if (c =? 34)%N then
            match parse_chars s' with
            | Some (k, rest) =>
                match skip_ws rest with
                | [] => None
                | d :: rest' =>
                    if (d =? 58)%N then
                      match parse_value fuel' rest' with
                      | Some (x, rest'') =>
                          match skip_ws rest'' with
                          | [] => None
                          | e :: rest3 =>
                              if (e =? 125)%N then Some ([(k, x)], rest3)
                              else if (e =? 44)%N then
                                match parse_members fuel' rest3 with
                                | Some (ms, rest4) =>
                                    Some ((k, x) :: ms, rest4)
                                | None => None
                                end
                              else None
                          end
                      | None => None
                      end
                    else None
                end
            | None => None
            end
          else None
      end
  end.

(** [JSON.parse(text)]: one value, then nothing but white space. *)
Definition parse (text : jsstring) : option (value Z) :=
  match parse_value (S (length text)) text with
  | Some (v, rest) =>
      match skip_ws rest with
      | [] => Some v
      | _ :: _ => None
      end
  | None => None
  end.

(** The number a string stands for: white space is zero, an integer
    literal is its value, anything else is not a number. *)
Definition string_to_number (s : jsstring) : ExtNum :=
  match trim s with
  | [] => Finite 0
  | t =>
      match parse_number t with
      | Some (z, []) => Finite (inject_Z z)
      | _ => NaN
      end
  end.

(** The values whose conversion to a primitive throws: an object whose
    own member [toString] (a JSON value, never a function) hides
    [Object.prototype.toString], its inherited [valueOf] returning the
    object itself; and an array with such an element, [join] converting
    every element other than [null] to a string. *)
Fixpoint no_primitive (v : value Z) : bool :=
  match v with
  | JObj members =>
      existsb (fun kv => jsstring_eqb (fst kv) (js "toString")) members
  | JArr elems => existsb no_primitive elems
  | JNull | JBool _ | JNum _ | JStr _ => false
  end.

(** [ToNumber(v)]: an array goes through its [toString], the elements
    joined by commas, and an object without a [toString] of its own
    through ["[object Object]"]. *)
Fixpoint to_number (v : value Z) : option ExtNum :=
  match v with
  | JNull => Some (Finite 0)
  | JBool b => Some (Finite (if b then 1 else 0))
  | JNum z => Some (Finite (inject_Z z))
  | JStr s => Some (string_to_number s)
  | JArr [] => Some (Finite 0)
  | JArr [JNull] => Some (Finite 0)
  | JArr [JBool _] => Some NaN
  | JArr [x] => to_number x
  | JArr elems => if existsb no_primitive elems then None else Some NaN
  | JObj _ => if no_primitive v then None else Some NaN
  end.

#[global] Instance runtime : Runtime Z := {
  JSON_parse := parse;
  JSON_stringify := stringify;
  ToNumber := to_number
}.

(** Strings the codec writes as they are: no control character. *)
Definition plain (s : jsstring) : bool := forallb (fun c => negb (c <? 32)%N) s.

(** Values all of whose strings and member names are [plain]. *)
Fixpoint printable (v : value Z) : bool :=
  match v with
  | JNull | JBool _ | JNum _ => true
  | JStr s => plain s
  | JArr elems => forallb printable elems
  | JObj members =>
      forallb (fun kv => match kv with (k, x) => plain k && printable x end)
        members
  end.

(** White space of the JSON grammar only. *)
Definition blank (s : jsstring) : Prop :=
  Forall (fun c => json_ws c = true) s.

(** What may follow a number: not a digit. *)
Definition delimited (rest : jsstring) : Prop :=
  match rest with
  | [] => True
  | c :: _ => is_digit c = false
  end.

(** Fuel that is enough for [parse_value]. *)
Fixpoint cost (v : value Z) : nat :=
  match v with
  | JArr elems => S (fold_right (fun x n => S (cost x + n)) O elems)
  | JObj members =>
      S (fold_right (fun kv n => match kv with (_, x) => S (cost x + n) end)
           O members)
  | _ => 1
  end.

(** The parser reads [v] back from what the printer wrote for it. *)
Definition reads_back (v : value Z) : Prop :=
  forall (gap indent : nat) (rest : jsstring) (fuel : nat),
    printable v = true ->
    delimited rest ->
    (cost v <= fuel)%nat ->
    parse_value fuel (stringify_at gap indent v ++ rest) = Some (v, rest).

(** How a member of an object is written. *)
Definition member_text (gap indent : nat) (kv : jsstring * value Z)
  : jsstring :=
  match kv with
  | (k, x) => quote k ++ colon gap ++ stringify_at gap indent x
  end.

End Mini.

(* ================================================================== *)
(** ** Files and environments to run the module on *)

Module Examples.

(** A state whose file holds [content], with nothing printed yet. *)
Definition file (content : jsstring) : State Z := mkState content [] [].

Definition record (id : string) : value Z := JObj [(js "id", JStr (js id))].

(** The collection of the scenario of the specification. *)
Definition abc : list (value Z) := [record "a"; record "b"; record "c"].

Definition abc_text : jsstring := Mini.stringify (JArr abc) 2.

(** The lock is held at the first two attempts and free at the third. *)
Definition contended : Env := mkEnv [true; true; false] None None None.

(** The lock is held at the first attempt and at the five retries. *)
Definition busy : Env := mkEnv (repeat true 6) None None None.

Definition unreadable : Env :=
  mkEnv [] (Some (SystemError "EACCES")) None None.

(** The disk fills up while the file is written: it is left empty. *)
Definition disk_full : Env :=
  mkEnv [] None (Some (SystemError "ENOSPC", [])) None.

(** The lock was removed under the holder: [release] throws. *)
Definition stuck_release : Env :=
  mkEnv [] None None (Some (SystemError "ERELEASED")).

(** An object whose [length] has no primitive, and the text
    [{"length":{"toString":1}}] that holds it. *)
Definition hidden_length : value Z :=
  JObj [(js "length", JObj [(js "toString", JNum 1)])].

Definition hidden_length_text : jsstring :=
  js "{" ++ Mini.quote (js "length") ++ js ":{"
    ++ Mini.quote (js "toString") ++ js ":1}}".

(** A wrapped function that prints and throws. *)
Definition failing_action : M Z unit :=
  console_print warn NumeroInvalido ;; throw TypeError.

End Examples.

(* ================================================================== *)
(** ** server.js: the routes that call the store

    The four routes of [src/server.js] that use [lerUsuarios] and
    [salvarUsuarios].  A request is what the handler reads of [req]; the
    handler returns the response it sends.  What the handlers print
    themselves is kept beside the state of the store. *)

(** [ToBoolean] on a number: false for the zeros and for [NaN].  With
    [Runtime], the part of the language that depends on what a number
    is. *)
Class Truth (number : Type) : Type := {
  number_truthy : number -> bool
}.

(** The [message] of a successful answer. *)
Inductive ok_message : Type :=
| CadastradoComSucesso    (* "Usuário cadastrado com sucesso!" *)
| AtualizadoComExito      (* "Usuário atualizado com sucesso!" *)
| RemovidoComSucesso.     (* "Usuário removido com sucesso!" *)

(** The [error] of a failing answer. *)
Inductive error_message : Type :=
| NaoFoiPossivelLer        (* "Não foi possível ler usuários." *)
| NaoFoiPossivelCadastrar  (* "Não foi possível cadastrar usuário." *)
| NaoFoiPossivelAtualizar  (* "Não foi possível atualizar usuário." *)
| NaoFoiPossivelRemover    (* "Não foi possível remover usuário." *)
| UsuarioNaoEncontrado.    (* "Usuário não encontrado." *)

(** What [res.json] is given. *)
Inductive body (number : Type) : Type :=
| Usuarios (todos : value number)              (* res.json(todos) *)
| Sucesso (message : ok_message) (usuario : value number)
                                   (* { ok: true, message, usuario } *)
| Falha (error : error_message).               (* { error } *)

Arguments Usuarios {number} todos.
Arguments Sucesso {number} message usuario.
Arguments Falha {number} error.

Record Response (number : Type) : Type := mkResponse {
  status : Z;
  corpo : body number
}.

Arguments mkResponse {number}.
Arguments status {number}.
Arguments corpo {number}.

(** What the handlers print. *)
Inductive server_message (number : Type) : Type :=
| SemLimite                                (* "Nenhum limite aplicado. ..." *)
| NumeroMaximo (num : Z)                   (* `Número máximo ...: ${num}` *)
| FalhaAoLer (err : exn)                   (* "Falha ao ler usuários:" *)
| UsuarioCadastrado (novoUsuario : value number)
| ErroAoCadastrar (err : exn)
| AtualizandoUsuario (id : jsstring)       (* `Atualizando usuário ...` *)
| ElementoIdentificado (usuarioIndex : Z)  (* `Elemento do VEtor ...` *)
| UsuarioAtualizado (usuario : value number)
| ErroAoAtualizar (err : exn)
| UsuarioRemovido (usuarioRemovido : value number)
| ErroAoRemover (err : exn).

Arguments SemLimite {number}.
Arguments NumeroMaximo {number} num.
Arguments FalhaAoLer {number} err.
Arguments UsuarioCadastrado {number} novoUsuario.
Arguments ErroAoCadastrar {number} err.
Arguments AtualizandoUsuario {number} id.
Arguments ElementoIdentificado {number} usuarioIndex.
Arguments UsuarioAtualizado {number} usuario.
Arguments ErroAoAtualizar {number} err.
Arguments UsuarioRemovido {number} usuarioRemovido.
Arguments ErroAoRemover {number} err.

(** The state a handler acts on: the store and the lines the handlers
    printed, oldest first. *)
Record Server (number : Type) : Type := mkServer {
  store : State number;
  printed : list (level * server_message number)
}.

Arguments mkServer {number}.
Arguments store {number}.
Arguments printed {number}.

(** The monad of the handlers. *)
Definition H (number A : Type) : Type :=
  Server number -> completion A * Server number.

Definition retH {number A} (a : A) : H number A := fun sv => (Normal a, sv).

Definition bindH {number A B} (m : H number A) (k : A -> H number B)
  : H number B :=
  fun sv =>
    match m sv with
    | (Normal a, sv') => k a sv'
    | (Throw e, sv') => (Throw e, sv')
    end.

(** [try { m } catch (err) { handler err }] in a route. *)
Definition try_catchH {number A} (m : H number A)
  (handler : exn -> H number A) : H number A :=
  fun sv =>
    match m sv with
    | (Normal a, sv') => (Normal a, sv')
    | (Throw e, sv') => handler e sv'
    end.

(** [await] of a call of the store. *)
Definition call {number A} (m : M number A) : H number A :=
  fun sv =>
    match m (store sv) with
    | (r, st') => (r, mkServer st' (printed sv))
    end.

(** A computation that touches no state. *)
Definition pure {number A} (r : completion A) : H number A :=
  fun sv => (r, sv).

Definition server_print {number} (lv : level) (msg : server_message number)
  : H number unit :=
  fun sv => (Normal tt, mkServer (store sv) (printed sv ++ [(lv, msg)])).

Declare Scope route_scope.
Delimit Scope route_scope with route.
Notation "x <- m ;; k" := (bindH m (fun x => k))
  (at level 61, m at next level, right associativity) : route_scope.
Notation "m ;; k" := (bindH m (fun _ => k))
  (at level 61, right associativity) : route_scope.

Section Routes.

Context {number : Type} `{RT : Runtime number} `{TR : Truth number}.

Notation value := (value number).
Notation H := (H number).
Notation Response := (Response number).

Local Open Scope route_scope.

(* ---------------------------------------------------------------- *)
(** *** What the routes use of the language *)

(** [parseInt(count, 10)], as the integer it denotes; [None] is [NaN].  An
    absent parameter is [undefined], which has no digit.  The number the
    runtime returns is the double nearest to this integer; the route only
    compares it with 0 and 1000 unless it lies between them, and there the
    two agree. *)
Definition parseInt10 (count : option jsstring) : option Z :=
  match count with
  | None => None
  | Some text =>
      let (negative, rest) :=
        match trimStart text with
        | c :: rest =>
            if (c =? 45)%N then (true, rest)
            else if (c =? 43)%N then (false, rest)
            else (false, c :: rest)
        | [] => (false, [])
        end in
      match Mini.take_digits rest with
      | ([], _) => None
      | (ds, _) =>
          Some (if negative : bool then - Mini.natural ds else Mini.natural ds)
      end
  end.

(** [ToBoolean(v)] *)
Definition truthy (v : value) : bool :=
  match v with
  | JNull => false
  | JBool b => b
  | JNum x => number_truthy x
  | JStr [] => false
  | JStr (_ :: _) => true
  | JArr _ | JObj _ => true
  end.

(** [u.id]: [None] is [undefined]. *)
Definition get_id (u : value) : completion (option value) :=
  match u with
  | JNull => Throw TypeError
  | JObj members => Normal (get_member (js "id") members)
  | JBool _ | JNum _ | JStr _ | JArr _ => Normal None
  end.

(** [u.id === id] *)
Definition id_is (id : jsstring) (u : value) : completion bool :=
  match get_id u with
  | Throw e => Throw e
  | Normal (Some (JStr s)) => Normal (jsstring_eqb s id)
  | Normal _ => Normal false
  end.

(** The index of the first of [elems] with [u.id === id], counted from
    [from]; [None] is -1. *)
Fixpoint first_with_id (id : jsstring) (elems : list value) (from : nat)
  : completion (option nat) :=
  match elems with
  | [] => Normal None
  | u :: later =>
      match id_is id u with
      | Throw e => Throw e
      | Normal true => Normal (Some from)
      | Normal false => first_with_id id later (S from)
      end
  end.

(** [usuarios.findIndex((u) => u.id === id)] *)
Definition findIndex (usuarios : value) (id : jsstring)
  : completion (option nat) :=
  match usuarios with
  | JArr elems => first_with_id id elems O
  | _ => Throw TypeError
  end.

Fixpoint without_id (id : jsstring) (elems : list value)
  : completion (list value) :=
  match elems with
  | [] => Normal []
  | u :: later =>
      match id_is id u with
      | Throw e => Throw e
      | Normal same =>
          match without_id id later with
          | Throw e => Throw e
          | Normal kept => Normal (if same then kept else u :: kept)
          end
      end
  end.

(** [usuarios.filter((u) => u.id !== id)] *)
Definition filter_out (usuarios : value) (id : jsstring) : completion value :=
  match usuarios with
  | JArr elems =>
      match without_id id elems with
      | Throw e => Throw e
      | Normal kept => Normal (JArr kept)
      end
  | _ => Throw TypeError
  end.

(** [usuarios.push(novoUsuario)] *)
Definition push (usuarios novoUsuario : value) : completion value :=
  match usuarios with
  | JArr elems => Normal (JArr (elems ++ [novoUsuario]))
  | _ => Throw TypeError
  end.

(** [obj.key = v]: the member is replaced where it stands, or added
    last. *)
Fixpoint set_member (key : jsstring) (v : value)
  (members : list (jsstring * value)) : list (jsstring * value) :=
  match members with
  | [] => [(key, v)]
  | (k, x) :: later =>
      if jsstring_eqb k key then (k, v) :: later
      else (k, x) :: set_member key v later
  end.

(** [if (req.body.key) u.key = req.body.key] *)
Definition assign_if_given (body : list (jsstring * value)) (key : string)
  (u : value) : value :=
  match get_member (js key) body with
  | Some v =>
      if truthy v then
        match u with
        | JObj members => JObj (set_member (js key) v members)
        | _ => u
        end
      else u
  | None => u
  end.

(** The four assignments of the update route. *)
Definition atualizar_campos (body : list (jsstring * value)) (u : value)
  : value :=
  assign_if_given body "email"
    (assign_if_given body "endereco"
       (assign_if_given body "idade"
          (assign_if_given body "nome" u))).

(** [usuarios[usuarioIndex]]; an index out of range is [undefined].  The
    routes index with what [findIndex] returned, which is in range
    ([findIndex_in_range]): their branch for [undefined] is never taken. *)
Definition at_index (usuarios : value) (usuarioIndex : nat) : option value :=
  match usuarios with
  | JArr elems => nth_error elems usuarioIndex
  | _ => None
  end.

Fixpoint update_at (i : nat) (f : value -> value) (elems : list value)
  : list value :=
  match elems, i with
  | [], _ => []
  | u :: later, O => f u :: later
  | u :: later, S i' => u :: update_at i' f later
  end.

(** A member of an object literal: [JSON.stringify], the only reader of
    the literal, leaves out a member that is [undefined]. *)
Definition given (body : list (jsstring * value)) (key : string)
  : list (jsstring * value) :=
  match get_member (js key) body with
  | Some v => [(js key, v)]
  | None => []
  end.

(** [{ id: uuidv4(), nome: req.body.nome, idade: req.body.idade,
    endereco: req.body.endereco, email: req.body.email }] *)
Definition novoUsuario (uuid : jsstring) (body : list (jsstring * value))
  : value :=
  JObj ((js "id", JStr uuid)
          :: given body "nome" ++ given body "idade"
          ++ given body "endereco" ++ given body "email").

(* ---------------------------------------------------------------- *)
(** *** The routes *)

(** The limit of [GET /list-users/:count?], from [parseInt] to the
    [try]. *)
Definition limite (count : option jsstring) : H Z :=
  let num := match parseInt10 count with
             | None => 100
             | Some n => n
             end in
  if num =? 0 then
    server_print log SemLimite ;;
    retH 10000
  else if num <? 0 then
    retH 100
  else if 1000 <? num then
    server_print log (NumeroMaximo 1000) ;;
    retH 1000
  else
    retH num.

(** [GET /list-users/:count?] *)
Definition list_users (amb : Env) (count : option jsstring) : H Response :=
  num <- limite count ;;
  try_catchH
    (todos <- call (lerUsuarios amb num) ;;
     retH (mkResponse 200 (Usuarios todos)))
    (fun err =>
       server_print error (FalhaAoLer err) ;;
       retH (mkResponse 500 (Falha NaoFoiPossivelLer))).

(** [POST /cadastrar-usuario]; [uuid] is what [uuidv4()] returns and
    [body] the members of [req.body]. *)
Definition cadastrar_usuario (amb_r amb_w : Env) (uuid : jsstring)
  (body : list (jsstring * value)) : H Response :=
  try_catchH
    (usuarios <- call (lerUsuarios amb_r 0) ;;
     let novo := novoUsuario uuid body in
     usuarios' <- pure (push usuarios novo) ;;
     call (salvarUsuarios amb_w usuarios') ;;
     server_print log (UsuarioCadastrado novo) ;;
     retH (mkResponse 201 (Sucesso CadastradoComSucesso novo)))
    (fun err =>
       server_print error (ErroAoCadastrar err) ;;
       retH (mkResponse 500 (Falha NaoFoiPossivelCadastrar))).

(** [PUT /atualizar-usuario/:id] *)
Definition atualizar_usuario (amb_r amb_w : Env) (id : jsstring)
  (body : list (jsstring * value)) : H Response :=
  try_catchH
    (usuarios <- call (lerUsuarios amb_r 0) ;;
     usuarioIndex <- pure (findIndex usuarios id) ;;
     server_print log (AtualizandoUsuario id) ;;
     match usuarioIndex with
     | None =>
         server_print log (ElementoIdentificado (-1)) ;;
         retH (mkResponse 404 (Falha UsuarioNaoEncontrado))
     | Some i =>
         server_print log (ElementoIdentificado (Z.of_nat i)) ;;
         match usuarios, at_index usuarios i with
         | JArr elems, Some u =>
             let usuario := atualizar_campos body u in
             call (salvarUsuarios amb_w
                     (JArr (update_at i (atualizar_campos body) elems))) ;;
             server_print log (UsuarioAtualizado usuario) ;;
             retH (mkResponse 200 (Sucesso AtualizadoComExito usuario))
         | _, _ => pure (Throw TypeError)
         end
     end)
    (fun err =>
       server_print error (ErroAoAtualizar err) ;;
       retH (mkResponse 500 (Falha NaoFoiPossivelAtualizar))).

(** [DELETE /remover-usuario/:id] *)
Definition remover_usuario (amb_r amb_w : Env) (id : jsstring)
  : H Response :=
  try_catchH
    (usuarios <- call (lerUsuarios amb_r 0) ;;
     usuarioIndex <- pure (findIndex usuarios id) ;;
     match usuarioIndex with
     | None => retH (mkResponse 404 (Falha UsuarioNaoEncontrado))
     | Some i =>
         match at_index usuarios i with
         | Some usuarioRemovido =>
             restantes <- pure (filter_out usuarios id) ;;
             call (salvarUsuarios amb_w restantes) ;;
             server_print log (UsuarioRemovido usuarioRemovido) ;;
             retH (mkResponse 200 (Sucesso RemovidoComSucesso usuarioRemovido))
         | None => pure (Throw TypeError)
         end
     end)
    (fun err =>
       server_print error (ErroAoRemover err) ;;
       retH (mkResponse 500 (Falha NaoFoiPossivelRemover))).

(* ---------------------------------------------------------------- *)
(** *** Vocabulary of the properties of the routes *)

(** The record [u] is an object whose [id] is the string [id]. *)
Definition has_id (id : jsstring) (u : value) : Prop :=
  exists members,
    u = JObj members /\ get_member (js "id") members = Some (JStr id).

(** [u] is not [null], and its [id] is not the string [id]. *)
Definition other_id (id : jsstring) (u : value) : Prop :=
  id_is id u = Normal false.

(** Whether [u] is an object whose [id] is the string [id]. *)
Definition id_matches (id : jsstring) (u : value) : bool :=
  match u with
  | JObj members =>
      match get_member (js "id") members with
      | Some (JStr s) => jsstring_eqb s id
      | _ => false
      end
  | _ => false
  end.

(** The names the update route assigns. *)
Definition updatable (key : jsstring) : Prop :=
  key = js "nome" \/ key = js "idade" \/ key = js "endereco"
  \/ key = js "email".

(** A server that has printed nothing. *)
Definition serving (st : State number) : Server number := mkServer st [].

(** The status of the answer, when the handler sent one. *)
Definition status_of (r : completion Response) : option Z :=
  match r with
  | Normal answer => Some (status answer)
  | Throw _ => None
  end.

(** A computation of the store that leaves the file as it found it. *)
Definition keeps_file {A} (m : M number A) : Prop :=
  forall st, arquivo (snd (m st)) = arquivo st.

End Routes.

(** [ToBoolean] on the integers of the small runtime. *)
#[global] Instance mini_truth : Truth Z := {
  number_truthy := fun z => negb (z =? 0)
}.

(** Requests to run the routes on. *)
Module RouteExamples.

(** A server whose file holds the three records [a], [b], [c]. *)
Definition three : Server Z := serving (Examples.file Examples.abc_text).

(** A server whose file holds an array that is not closed. *)
Definition broken : Server Z := serving (Examples.file (js "[1, 2")).

(** A server whose file holds [[null]]. *)
Definition with_null : Server Z := serving (Examples.file (js "[null]")).

(** [{ "nome": "Ana", "idade": 30 }] *)
Definition ana : list (jsstring * value Z) :=
  [(js "nome", JStr (js "Ana")); (js "idade", JNum 30)].

(** [{ "nome": "", "idade": 0, "email": null }] *)
Definition nothing_given : list (jsstring * value Z) :=
  [(js "nome", JStr []); (js "idade", JNum 0); (js "email", JNull)].

End RouteExamples.

(* ================================================================== *)
(** ** Properties *)

Section Properties.

Context {number : Type} `{RT : Runtime number}.

Notation value := (value number).
Notation State := (State number).
Notation M := (M number).

(** *** [trim] *)

Lemma trimStart_nil (s : jsstring) :
  trimStart s = [] <-> whitespace_only s.
Proof.
  unfold whitespace_only. induction s as [|c s IH]; simpl.
  - split; [constructor | reflexivity].
  - destruct (is_whitespace c) eqn:Hc.
    + rewrite IH. split; intro H.
      * constructor; assumption.
      * inversion H; assumption.
    + split; [discriminate|]. intro H. inversion H; congruence.
Qed.

Lemma trimStart_head (s : jsstring) (c : N) (t : jsstring) :
  trimStart s = c :: t -> is_whitespace c = false.
Proof.
  induction s as [|d s IH]; simpl; [discriminate|].
  destruct (is_whitespace d) eqn:Hd; [exact IH|].
  intro H. injection H as -> _. exact Hd.
Qed.

Lemma whitespace_only_rev (s : jsstring) :
  whitespace_only (rev s) <-> whitespace_only s.
Proof.
  unfold whitespace_only. rewrite !Forall_forall.
  split; intros H c Hc; apply H; [rewrite <- in_rev | rewrite <- in_rev in Hc];
    assumption.
Qed.

(** [trim] leaves nothing exactly of the blank texts. *)
Lemma trim_nil (s : jsstring) : trim s = [] <-> whitespace_only s.
Proof.
  unfold trim, trimEnd. split.
  - intro H. apply (f_equal (@rev N)) in H. rewrite rev_involutive in H.
    simpl in H. apply trimStart_nil in H.
    apply (proj1 (whitespace_only_rev _)) in H.
    destruct (trimStart s) as [|c t] eqn:Hs.
    + apply trimStart_nil. exact Hs.
    + apply trimStart_head in Hs. unfold whitespace_only in H.
      apply Forall_inv in H. simpl in H. congruence.
  - intro H. apply trimStart_nil in H. rewrite H. reflexivity.
Qed.

(** *** The lock *)

Lemma acquires_or_exhausted (amb : Env) : acquires amb \/ exhausted amb.
Proof.
  unfold acquires, exhausted.
  destruct (acquire retries (lock_attempts amb)); auto.
Qed.

Lemma comLock_exhausted {A} (amb : Env) (fn : M A) (st : State) :
  exhausted amb -> comLock amb fn st = (Throw ELOCKED, st).
Proof.
  unfold exhausted, comLock, lockfile_lock. intros ->. reflexivity.
Qed.

Lemma comLock_acquires {A} (amb : Env) (fn : M A) (st : State) :
  acquires amb ->
  comLock amb fn st =
  (fst (fn (locked st)), unlocked amb (snd (fn (locked st)))).
Proof.
  unfold acquires, comLock, lockfile_lock. intros ->.
  unfold bind, record_lock, ret, locked. simpl.
  destruct (fn _) as [r st2]. simpl.
  unfold try_catch, release_fn, unlocked, release_output, release_event.
  destruct (release_error amb) as [e|]; simpl.
  - unfold bind, record_lock, throw, console_print. simpl. reflexivity.
  - unfold record_lock. simpl. rewrite app_nil_r. reflexivity.
Qed.

(** *** Comparisons with a length *)

Lemma js_le_length (num n : Z) :
  js_le num (Finite (inject_Z n)) = (num <=? n).
Proof.
  simpl. unfold Qle_bool. simpl. rewrite !Z.mul_1_r. reflexivity.
Qed.

Lemma js_gt_length (num n : Z) :
  js_gt num (Finite (inject_Z n)) = (n <? num).
Proof.
  simpl. unfold Qle_bool. simpl. rewrite !Z.mul_1_r.
  rewrite Z.ltb_antisym. reflexivity.
Qed.

Lemma slice_end_prefix (len fim : Z) :
  0 < fim <= len -> slice_end len fim = Z.to_nat fim.
Proof.
  intros [H0 H1]. unfold slice_end.
  destruct (Z.ltb_spec fim 0); [lia|]. rewrite Z.min_l by lia. reflexivity.
Qed.

(** *** The function under the lock *)

Lemma try_catch_normal {A} (m : M A) (handler : exn -> M A) (st : State)
  (a : A) :
  fst (m st) = Normal a -> fst (try_catch m handler st) = Normal a.
Proof.
  unfold try_catch. destruct (m st) as [[a'|e] st']; simpl; congruence.
Qed.

(** The state in which the text of the file has been read. *)
Lemma lerUsuarios_fn_parsed (amb : Env) (num : Z) (st : State) (v : value) :
  readFile_error amb = None ->
  parses_to (arquivo st) v ->
  lerUsuarios_fn amb num st =
  try_catch (limitar num v)
    (fun err => console_print error (ErroAoLer err) ;; ret (JArr []))
    (mkState (arquivo st) (console st ++ [(log, LendoUsuarios)])
       (lock_history st)).
Proof.
  intros Hread [Hblank Hparse].
  unfold lerUsuarios_fn, try_catch, bind, fs_readFile, console_print.
  rewrite Hread. simpl.
  destruct (trim (arquivo st)) as [|c t] eqn:Ht; [congruence|].
  rewrite Hparse. reflexivity.
Qed.

(** The selection on an array never throws. *)
Lemma limitar_array (num : Z) (elems : list value) (st : State) :
  fst (limitar num (JArr elems) st) =
  Normal (JArr
    (if num =? 0 then elems
     else if num <? 0 then []
     else if num <=? Z.of_nat (length elems)
          then firstn (Z.to_nat num) elems
          else elems)).
Proof.
  unfold limitar, retornar, bind, get_length, slice0, convert, numeric, ret,
    console_print.
  rewrite js_le_length, js_gt_length.
  destruct (Z.ltb_spec 0 num) as [Hpos|Hneg].
  - destruct (Z.eqb_spec num 0); [lia|].
    destruct (Z.ltb_spec num 0); [lia|].
    destruct (Z.leb_spec num (Z.of_nat (length elems))) as [Hle|Hgt].
    + rewrite slice_end_prefix by lia. reflexivity.
    + destruct (Z.ltb_spec (Z.of_nat (length elems)) num); [|lia].
      reflexivity.
  - destruct (Z.ltb_spec (Z.of_nat (length elems)) num); [lia|].
    destruct (Z.eqb_spec num 0) as [->|Hnz]; [reflexivity|].
    destruct (Z.ltb_spec num 0); [|lia]. reflexivity.
Qed.

(** A string is selected from like an array, code unit by code unit. *)
Lemma limitar_string (num : Z) (s : jsstring) (st : State) :
  fst (limitar num (JStr s) st) =
  Normal
    (if num =? 0 then JStr s
     else if num <? 0 then JArr []
     else if num <=? Z.of_nat (length s)
          then JStr (firstn (Z.to_nat num) s)
          else JStr s).
Proof.
  unfold limitar, retornar, bind, get_length, slice0, convert, numeric, ret,
    console_print.
  rewrite js_le_length, js_gt_length.
  destruct (Z.ltb_spec 0 num) as [Hpos|Hneg].
  - destruct (Z.eqb_spec num 0); [lia|].
    destruct (Z.ltb_spec num 0); [lia|].
    destruct (Z.leb_spec num (Z.of_nat (length s))) as [Hle|Hgt].
    + rewrite slice_end_prefix by lia. reflexivity.
    + destruct (Z.ltb_spec (Z.of_nat (length s)) num); [|lia].
      reflexivity.
  - destruct (Z.ltb_spec (Z.of_nat (length s)) num); [lia|].
    destruct (Z.eqb_spec num 0) as [->|Hnz]; [reflexivity|].
    destruct (Z.ltb_spec num 0); [|lia]. reflexivity.
Qed.

(** Without a limit, a value that has no [length] is returned as it is. *)
Lemma limitar_zero_lengthless (v : value) (st : State) :
  lengthless v -> fst (limitar 0 v st) = Normal v.
Proof.
  intro Hv. unfold limitar, retornar, bind, ret, console_print.
  change (0 <? 0) with false. cbv iota.
  destruct v as [|b|x|s|elems|members]; simpl in Hv; try contradiction;
    unfold get_length, ret; rewrite ?Hv; reflexivity.
Qed.

(** An object with a member [length] is compared through that member:
    without a limit it is returned as it is when the member converts to a
    number, whatever that number is. *)
Lemma limitar_zero_member (members : list (jsstring * value)) (x : value)
  (n : ExtNum) (st : State) :
  get_member (js "length") members = Some x ->
  ToNumber x = Some n ->
  fst (limitar 0 (JObj members) st) = Normal (JObj members).
Proof.
  intros Hlen Hnum.
  unfold limitar, retornar, bind, get_length, convert, numeric, ret,
    console_print.
  change (0 <? 0) with false. cbv beta iota.
  rewrite Hlen. cbv beta iota. rewrite Hnum. cbv beta iota.
  destruct (js_gt 0 n); [|change (0 =? 0) with true; cbv beta iota];
    rewrite ?Hlen; cbv beta iota; rewrite ?Hnum; reflexivity.
Qed.

(** When the member [length] has no primitive, the comparison throws,
    whatever the limit. *)
Lemma limitar_member_throws (num : Z) (members : list (jsstring * value))
  (x : value) (st : State) :
  get_member (js "length") members = Some x ->
  ToNumber x = None ->
  limitar num (JObj members) st = (Throw TypeError, st).
Proof.
  intros Hlen Hnum.
  unfold limitar, bind, get_length, convert, numeric, ret, throw.
  destruct (0 <? num); rewrite Hlen; cbv beta iota; rewrite Hnum;
    reflexivity.
Qed.

(** With a limit, a value that has no [length] gives the empty array. *)
Lemma limitar_lengthless (num : Z) (v : value) (st : State) :
  lengthless v -> num <> 0 -> fst (limitar num v st) = Normal (JArr []).
Proof.
  intros Hv Hnum. unfold limitar, retornar, bind, ret, console_print.
  destruct v as [|b|x|s|elems|members]; simpl in Hv; try contradiction;
    unfold get_length, ret; rewrite ?Hv;
    destruct (Z.eqb_spec num 0); try contradiction;
    destruct (0 <? num); reflexivity.
Qed.

(** Reading the [length] of [null] throws. *)
Lemma limitar_null (num : Z) (st : State) :
  limitar num JNull st = (Throw TypeError, st).
Proof.
  unfold limitar, bind, get_length, throw. destruct (0 <? num); reflexivity.
Qed.

Lemma try_catch_total {A} (m : M A) (handler : exn -> M A) (st : State) :
  (forall e st', exists a, fst (handler e st') = Normal a) ->
  exists a, fst (try_catch m handler st) = Normal a.
Proof.
  intro H. unfold try_catch. destruct (m st) as [[a|e] st']; simpl.
  - exists a. reflexivity.
  - apply H.
Qed.

Lemma try_catch_throw {A} (m : M A) (handler : exn -> M A) (st : State)
  (e : exn) :
  fst (m st) = Throw e ->
  try_catch m handler st = handler e (snd (m st)).
Proof.
  unfold try_catch. destruct (m st) as [[a|e'] st']; simpl; congruence.
Qed.

Lemma lerUsuarios_acquires (amb : Env) (num : Z) (st : State) :
  acquires amb ->
  fst (lerUsuarios amb num st) = fst (lerUsuarios_fn amb num (locked st)).
Proof.
  intro H. unfold lerUsuarios. rewrite comLock_acquires by exact H.
  reflexivity.
Qed.

(** The function under the lock always returns. *)
Lemma lerUsuarios_fn_returns (amb : Env) (num : Z) (st : State) :
  exists v, fst (lerUsuarios_fn amb num st) = Normal v.
Proof.
  unfold lerUsuarios_fn. apply try_catch_total. intros e st'.
  exists (JArr []). reflexivity.
Qed.

(** A failing [fs.readFile] gives the empty array. *)
Lemma lerUsuarios_fn_unreadable (amb : Env) (num : Z) (st : State) (e : exn) :
  readFile_error amb = Some e ->
  lerUsuarios_fn amb num st =
  (Normal (JArr []),
   mkState (arquivo st) (console st ++ [(error, ErroAoLer e)])
     (lock_history st)).
Proof.
  intro H. unfold lerUsuarios_fn, try_catch, bind, fs_readFile. rewrite H.
  reflexivity.
Qed.

(** A blank file gives the empty array. *)
Lemma lerUsuarios_fn_blank (amb : Env) (num : Z) (st : State) :
  whitespace_only (arquivo st) ->
  fst (lerUsuarios_fn amb num st) = Normal (JArr []).
Proof.
  intro H. apply trim_nil in H.
  unfold lerUsuarios_fn, try_catch, bind, fs_readFile, console_print.
  destruct (readFile_error amb); [reflexivity|]. simpl. rewrite H.
  reflexivity.
Qed.

(** A text [JSON.parse] rejects gives the empty array, and the
    [SyntaxError] is printed. *)
Lemma lerUsuarios_fn_malformed (amb : Env) (num : Z) (st : State) :
  readFile_error amb = None ->
  malformed (arquivo st) ->
  lerUsuarios_fn amb num st =
  (Normal (JArr []),
   mkState (arquivo st)
     (console st ++ [(log, LendoUsuarios)] ++ [(error, ErroAoLer SyntaxError)])
     (lock_history st)).
Proof.
  intros Hread [Hblank Hparse].
  unfold lerUsuarios_fn, try_catch, bind, fs_readFile, console_print.
  rewrite Hread. simpl.
  destruct (trim (arquivo st)) as [|c t] eqn:Ht; [congruence|].
  rewrite Hparse. unfold throw, ret. simpl. rewrite <- app_assoc.
  reflexivity.
Qed.

(** The selection of [lerUsuarios] on a file that holds an array. *)
Lemma lerUsuarios_array (amb : Env) (num : Z) (st : State)
  (records : list value) :
  acquires amb ->
  readFile_error amb = None ->
  parses_to (arquivo st) (JArr records) ->
  fst (lerUsuarios amb num st) =
  Normal (JArr
    (if num =? 0 then records
     else if num <? 0 then []
     else if num <=? Z.of_nat (length records)
          then firstn (Z.to_nat num) records
          else records)).
Proof.
  intros Hlock Hread Hparse. rewrite lerUsuarios_acquires by exact Hlock.
  rewrite (lerUsuarios_fn_parsed amb num (locked st) (JArr records))
    by assumption.
  apply try_catch_normal. apply limitar_array.
Qed.

(** What a successful [salvarUsuarios] leaves. *)
Lemma salvarUsuarios_written (amb : Env) (usuarios : value) (st : State) :
  acquires amb ->
  writeFile_error amb = None ->
  salvarUsuarios amb usuarios st =
  (Normal tt,
   unlocked amb
     (mkState (JSON_stringify usuarios 2)
        (console st ++ [(log, AtualizadoComSucesso)])
        (lock_history st ++ [Acquired]))).
Proof.
  intros Hlock Hwrite. unfold salvarUsuarios.
  rewrite comLock_acquires by exact Hlock.
  unfold salvarUsuarios_fn, try_catch, bind, fs_writeFile, console_print.
  rewrite Hwrite. reflexivity.
Qed.

(** What a [salvarUsuarios] whose [fs.writeFile] fails leaves. *)
Lemma salvarUsuarios_failed (amb : Env) (usuarios : value) (st : State)
  (e : exn) (residue : jsstring) :
  acquires amb ->
  writeFile_error amb = Some (e, residue) ->
  salvarUsuarios amb usuarios st =
  (Normal tt,
   unlocked amb
     (mkState residue (console st ++ [(error, ErroAoSalvar e)])
        (lock_history st ++ [Acquired]))).
Proof.
  intros Hlock Hwrite. unfold salvarUsuarios.
  rewrite comLock_acquires by exact Hlock.
  unfold salvarUsuarios_fn, try_catch, bind, fs_writeFile, console_print.
  rewrite Hwrite. reflexivity.
Qed.

Lemma releases_app (h1 h2 : list lock_event) :
  releases (h1 ++ h2) = (releases h1 + releases h2)%nat.
Proof.
  induction h1 as [|[| |e] h1 IH]; simpl; rewrite ?IH; reflexivity.
Qed.

(* ---------------------------------------------------------------- *)
(** *** The lock manager *)

(** C7: when the acquisition of the lock exhausts its retries, [comLock]
    fails with the error of the lock and the wrapped function is not run:
    the state (file, console, lock) is the one before the call, whatever
    the function is. *)
Theorem comLock_exhausted_never_runs {A} (amb : Env) (fn : M A) (st : State) :
  exhausted amb ->
  comLock amb fn st = (Throw ELOCKED, st) /\
  forall fn' : M A, comLock amb fn' st = comLock amb fn st.
Proof.
  intro H. split.
  - apply comLock_exhausted. exact H.
  - intro fn'. rewrite !comLock_exhausted by exact H. reflexivity.
Qed.

(** C8: once the lock is acquired, [release] is called exactly once after
    the wrapped function, whether the function returned or threw; the call
    completes as the function did, also when [release] fails, and that
    failure is printed. *)
Theorem comLock_scoped_release {A} (amb : Env) (fn : M A) (st : State) :
  acquires amb ->
  let done := fn (locked st) in
  let after := snd (comLock amb fn st) in
  fst (comLock amb fn st) = fst done /\
  releases (lock_history after) = S (releases (lock_history (snd done))) /\
  lock_history after = lock_history (snd done) ++ [release_event amb] /\
  arquivo after = arquivo (snd done) /\
  (release_error amb = None -> console after = console (snd done)) /\
  (forall e, release_error amb = Some e ->
     console after = console (snd done) ++ [(error, ErroAoLiberar e)]).
Proof.
  intros H done after. subst done after.
  rewrite comLock_acquires by exact H. simpl.
  repeat split.
  - rewrite releases_app. unfold release_event.
    destruct (release_error amb); simpl; lia.
  - intro Hr. unfold release_output. rewrite Hr. apply app_nil_r.
  - intros e Hr. unfold release_output. rewrite Hr. reflexivity.
Qed.

(* ---------------------------------------------------------------- *)
(** *** The record store: [lerUsuarios] *)

(** C1: on a file that holds an array of [L] records, [lerUsuarios]
    returns all of them for the limit 0 and for a limit above [L], the first
    [num] of them in their order for [0 < num <= L], and the empty array
    for a negative limit. *)
Theorem lerUsuarios_limit_selection (amb : Env) (st : State)
  (records : list value) (num : Z) :
  acquires amb ->
  readFile_error amb = None ->
  parses_to (arquivo st) (JArr records) ->
  let L := Z.of_nat (length records) in
  let result := fst (lerUsuarios amb num st) in
  (num = 0 -> result = Normal (JArr records)) /\
  (num > L -> result = Normal (JArr records)) /\
  (0 < num <= L -> result = Normal (JArr (firstn (Z.to_nat num) records))) /\
  (num < 0 -> result = Normal (JArr [])).
Proof.
  intros Hlock Hread Hparse L result. subst L result.
  rewrite (lerUsuarios_array amb num st records) by assumption.
  repeat split; intro H.
  - subst num. reflexivity.
  - destruct (Z.eqb_spec num 0); [reflexivity|].
    destruct (Z.ltb_spec num 0); [lia|].
    destruct (Z.leb_spec num (Z.of_nat (length records))); [lia|].
    reflexivity.
  - destruct (Z.eqb_spec num 0); [lia|].
    destruct (Z.ltb_spec num 0); [lia|].
    destruct (Z.leb_spec num (Z.of_nat (length records))); [|lia].
    reflexivity.
  - destruct (Z.eqb_spec num 0); [lia|].
    destruct (Z.ltb_spec num 0); [|lia]. reflexivity.
Qed.

(** C3, as the code has it: when the lock cannot be acquired the call
    throws the error of the lock.  Once the lock is acquired the call never
    throws: it returns the empty array when the file cannot be read or is
    not JSON, and an array unless the file holds a JSON value that is not
    one. *)
Theorem lerUsuarios_completion (amb : Env) (num : Z) (st : State) :
  let result := fst (lerUsuarios amb num st) in
  (exhausted amb -> result = Throw ELOCKED) /\
  (acquires amb ->
     (exists v, result = Normal v) /\
     (readFile_error amb <> None \/ malformed (arquivo st) ->
        result = Normal (JArr [])) /\
     ((forall v, parses_to (arquivo st) v -> exists records, v = JArr records) ->
        exists records, result = Normal (JArr records))).
Proof.
  intro result. subst result. split.
  - intro H. unfold lerUsuarios. rewrite comLock_exhausted by exact H.
    reflexivity.
  - intro Hlock. rewrite lerUsuarios_acquires by exact Hlock.
    split; [apply lerUsuarios_fn_returns|].
    destruct (readFile_error amb) as [e|] eqn:Hread.
    + rewrite (lerUsuarios_fn_unreadable amb num _ e) by exact Hread.
      split; [reflexivity|]. intros _. exists []. reflexivity.
    + split.
      * intros [H|H]; [congruence|].
        rewrite lerUsuarios_fn_malformed by assumption. reflexivity.
      * intro Harr.
        destruct (trim (arquivo st)) as [|c t] eqn:Ht.
        { exists []. apply lerUsuarios_fn_blank. apply trim_nil. exact Ht. }
        destruct (JSON_parse (trim (arquivo st))) as [v|] eqn:Hparse.
        { assert (Hv : parses_to (arquivo st) v)
            by (split; [congruence | exact Hparse]).
          destruct (Harr v Hv) as [records ->].
          rewrite (lerUsuarios_fn_parsed amb num (locked st) (JArr records))
            by assumption.
          eexists. apply try_catch_normal. apply limitar_array. }
        { exists []. rewrite lerUsuarios_fn_malformed; [reflexivity|exact Hread|].
          split; simpl; [congruence | exact Hparse]. }
Qed.

(** C4: a file that is empty or holds white space only gives the empty
    array, without an error; a file that is not blank and whose text is not
    valid JSON gives the empty array too, and the [SyntaxError] is printed
    with [console.error], not thrown. *)
Theorem lerUsuarios_blank_or_malformed (amb : Env) (num : Z) (st : State) :
  acquires amb ->
  let result := fst (lerUsuarios amb num st) in
  let after := snd (lerUsuarios amb num st) in
  (whitespace_only (arquivo st) -> result = Normal (JArr [])) /\
  (readFile_error amb = None -> malformed (arquivo st) ->
     result = Normal (JArr []) /\
     In (error, ErroAoLer SyntaxError) (console after)).
Proof.
  intros Hlock result after. subst result after. split.
  - intro H. rewrite lerUsuarios_acquires by exact Hlock.
    apply lerUsuarios_fn_blank. exact H.
  - intros Hread Hbad. unfold lerUsuarios.
    rewrite comLock_acquires by exact Hlock.
    rewrite lerUsuarios_fn_malformed by assumption. simpl.
    split; [reflexivity|].
    rewrite !in_app_iff. left. right. right. left. reflexivity.
Qed.

(** C10, as the code has it: when the file holds a JSON value that is not
    an array, the limit 0 returns that value unchanged when it is a
    boolean, a number, a string or an object with no member named
    [length]; a limit other than 0 returns the empty array when the value
    is a boolean, a number or an object with no member named [length]; for
    [null] every limit returns the empty array; a string is selected from
    like an array; an object with a member named [length] is compared
    through that member, so that the limit 0 returns the object unchanged
    when the member converts to a number, and every limit returns the
    empty array when the conversion throws. *)
Theorem lerUsuarios_non_array (amb : Env) (st : State) (v : value) :
  acquires amb ->
  readFile_error amb = None ->
  parses_to (arquivo st) v ->
  (lengthless v \/ (exists s, v = JStr s) ->
     fst (lerUsuarios amb 0 st) = Normal v) /\
  (lengthless v -> forall num, num <> 0 ->
     fst (lerUsuarios amb num st) = Normal (JArr [])) /\
  (v = JNull -> forall num, fst (lerUsuarios amb num st) = Normal (JArr [])) /\
  (forall s, v = JStr s -> forall num,
     (0 < num <= Z.of_nat (length s) ->
        fst (lerUsuarios amb num st) = Normal (JStr (firstn (Z.to_nat num) s))) /\
     (num > Z.of_nat (length s) ->
        fst (lerUsuarios amb num st) = Normal (JStr s)) /\
     (num < 0 -> fst (lerUsuarios amb num st) = Normal (JArr []))) /\
  (forall members x, v = JObj members ->
     get_member (js "length") members = Some x ->
     (ToNumber x <> None -> fst (lerUsuarios amb 0 st) = Normal v) /\
     (ToNumber x = None ->
        forall num, fst (lerUsuarios amb num st) = Normal (JArr []))).
Proof.
  intros Hlock Hread Hparse.
  assert (Hfn : forall num,
    fst (lerUsuarios amb num st) =
    fst (try_catch (limitar num v)
           (fun err => console_print error (ErroAoLer err) ;; ret (JArr []))
           (mkState (arquivo st) (console st ++ [(log, LendoUsuarios)])
              (lock_history st ++ [Acquired])))).
  { intro num. rewrite lerUsuarios_acquires by exact Hlock.
    rewrite (lerUsuarios_fn_parsed amb num (locked st) v) by assumption.
    reflexivity. }
  split; [|split; [|split; [|split]]].
  - intros [Hv | [s ->]]; rewrite Hfn; apply try_catch_normal.
    + apply limitar_zero_lengthless. exact Hv.
    + rewrite limitar_string. reflexivity.
  - intros Hv num Hnum. rewrite Hfn. apply try_catch_normal.
    apply limitar_lengthless; assumption.
  - intros -> num. rewrite Hfn. rewrite (try_catch_throw _ _ _ TypeError);
      rewrite limitar_null; reflexivity.
  - intros s -> num. split; [|split]; intro H; rewrite Hfn;
      apply try_catch_normal; rewrite limitar_string.
    + destruct (Z.eqb_spec num 0); [lia|].
      destruct (Z.ltb_spec num 0); [lia|].
      destruct (Z.leb_spec num (Z.of_nat (length s))); [|lia]. reflexivity.
    + destruct (Z.eqb_spec num 0); [lia|].
      destruct (Z.ltb_spec num 0); [lia|].
      destruct (Z.leb_spec num (Z.of_nat (length s))); [lia|]. reflexivity.
    + destruct (Z.eqb_spec num 0); [lia|].
      destruct (Z.ltb_spec num 0); [|lia]. reflexivity.
  - intros members x -> Hlen. split.
    + intro Hnum. destruct (ToNumber x) as [n|] eqn:Hn; [|congruence].
      rewrite Hfn. apply try_catch_normal.
      apply (limitar_zero_member members x n); assumption.
    + intros Hnum num. rewrite Hfn.
      rewrite (try_catch_throw _ _ _ TypeError);
        rewrite (limitar_member_throws num members x) by assumption;
        reflexivity.
Qed.

(* ---------------------------------------------------------------- *)
(** *** The record store: [salvarUsuarios] *)

(** C5: after a [salvarUsuarios] whose write succeeded the file holds
    exactly [JSON.stringify(usuarios, null, 2)] of the whole sequence,
    whatever it held before. *)
Theorem salvarUsuarios_overwrites (amb : Env) (records : list value)
  (st : State) :
  acquires amb ->
  writeFile_error amb = None ->
  fst (salvarUsuarios amb (JArr records) st) = Normal tt /\
  arquivo (snd (salvarUsuarios amb (JArr records) st)) =
  JSON_stringify (JArr records) 2.
Proof.
  intros Hlock Hwrite. rewrite salvarUsuarios_written by assumption.
  split; reflexivity.
Qed.

(** C6: once the lock is acquired [salvarUsuarios] completes normally
    also when [fs.writeFile] fails: the error is printed with
    [console.error] and nothing is thrown. *)
Theorem salvarUsuarios_swallows_failure (amb : Env) (records : list value)
  (st : State) (e : exn) (residue : jsstring) :
  acquires amb ->
  writeFile_error amb = Some (e, residue) ->
  fst (salvarUsuarios amb (JArr records) st) = Normal tt /\
  console (snd (salvarUsuarios amb (JArr records) st)) =
  console st ++ [(error, ErroAoSalvar e)] ++ release_output amb.
Proof.
  intros Hlock Hwrite.
  rewrite (salvarUsuarios_failed amb _ st e residue) by assumption.
  simpl. rewrite <- app_assoc. split; reflexivity.
Qed.

(** C2: [salvarUsuarios(X)] followed by [lerUsuarios(0)], nothing written
    in between, returns [X]: the same records in the same order. *)
Theorem salvar_ler_round_trip (amb_w amb_r : Env) (records : list value)
  (st : State) :
  acquires amb_w ->
  writeFile_error amb_w = None ->
  acquires amb_r ->
  readFile_error amb_r = None ->
  parses_to (JSON_stringify (JArr records) 2) (JArr records) ->
  fst (lerUsuarios amb_r 0 (snd (salvarUsuarios amb_w (JArr records) st))) =
  Normal (JArr records).
Proof.
  intros Hw Hwrite Hr Hread Hcodec.
  rewrite (lerUsuarios_array amb_r 0 _ records); try assumption.
  - reflexivity.
  - rewrite salvarUsuarios_written by assumption. exact Hcodec.
Qed.

End Properties.

(* ================================================================== *)
(** ** The small runtime gives back what it wrote

    Every [printable] value is read back by [Mini.parse] from the text
    [Mini.stringify] wrote for it, whatever the indentation: the codec law
    that the round trip of the store assumes has a model. *)

Module MiniFacts.

Import Mini.

(** *** Numbers *)

Lemma digits_of_value (fuel : nat) : forall (n : Z) (acc : jsstring),
  0 <= n < 2 ^ Z.of_nat fuel ->
  fold_left (fun a c => 10 * a + (Z.of_N c - 48)) (digits_of fuel n acc) 0 =
  fold_left (fun a c => 10 * a + (Z.of_N c - 48)) acc n.
Proof.
  induction fuel as [|fuel IH]; intros n acc Hn.
  - simpl in *. replace n with 0 by lia. reflexivity.
  - cbn [digits_of]. destruct (Z.ltb_spec n 10) as [Hlt|Hge].
    + cbn [fold_left]. f_equal. rewrite Z2N.id by lia. lia.
    + rewrite IH.
      * cbn [fold_left]. f_equal. rewrite Z2N.id.
        -- pose proof (Z.div_mod n 10). lia.
        -- pose proof (Z.mod_pos_bound n 10). lia.
      * rewrite Nat2Z.inj_succ, Z.pow_succ_r in Hn by lia.
        split; [apply Z.div_pos; lia|].
        apply Z.div_lt_upper_bound; lia.
Qed.

Lemma digits_of_digit (fuel : nat) : forall (n : Z) (acc : jsstring),
  0 <= n ->
  Forall (fun c => is_digit c = true) acc ->
  Forall (fun c => is_digit c = true) (digits_of fuel n acc).
Proof.
  induction fuel as [|fuel IH]; intros n acc Hn Hacc; [exact Hacc|].
  cbn [digits_of]. destruct (Z.ltb_spec n 10) as [Hlt|Hge].
  - constructor; [|exact Hacc]. unfold is_digit.
    apply andb_true_intro. split; apply N.leb_le; lia.
  - apply IH; [apply Z.div_pos; lia|].
    constructor; [|exact Hacc]. unfold is_digit.
    pose proof (Z.mod_pos_bound n 10).
    apply andb_true_intro. split; apply N.leb_le; lia.
Qed.

Lemma digits_of_head (fuel : nat) : forall (n : Z) (acc : jsstring),
  0 < n < 2 ^ Z.of_nat fuel ->
  exists c t, digits_of fuel n acc = c :: t /\ c <> 48%N.
Proof.
  induction fuel as [|fuel IH]; intros n acc Hn.
  - simpl in Hn. lia.
  - cbn [digits_of]. destruct (Z.ltb_spec n 10) as [Hlt|Hge].
    + eexists. eexists. split; [reflexivity|]. lia.
    + apply IH. rewrite Nat2Z.inj_succ, Z.pow_succ_r in Hn by lia.
      split.
      * apply Z.div_str_pos. lia.
      * apply Z.div_lt_upper_bound; lia.
Qed.

Lemma unsigned_fuel (n : Z) :
  0 <= n -> n < 2 ^ Z.of_nat (S (Z.to_nat (Z.log2 n))).
Proof.
  intro Hn. rewrite Nat2Z.inj_succ, Z2Nat.id by apply Z.log2_nonneg.
  destruct (Z.eq_dec n 0) as [->|Hnz]; [reflexivity|].
  apply Z.log2_spec. lia.
Qed.

Lemma take_digits_app (ds rest : jsstring) :
  Forall (fun c => is_digit c = true) ds ->
  delimited rest ->
  take_digits (ds ++ rest) = (ds, rest).
Proof.
  intros Hds Hrest. induction Hds as [|c ds Hc _ IH]; cbn [app take_digits].
  - destruct rest as [|c r]; [reflexivity|]. unfold delimited in Hrest.
    cbn [take_digits]. rewrite Hrest. reflexivity.
  - rewrite Hc, IH. reflexivity.
Qed.

Lemma parse_unsigned_unsigned (n : Z) (rest : jsstring) :
  0 <= n -> delimited rest ->
  parse_unsigned (unsigned n ++ rest) = Some (n, rest).
Proof.
  intros Hn Hrest. destruct (Z.eq_dec n 0) as [->|Hnz]; [reflexivity|].
  pose proof (unsigned_fuel n Hn) as Hfuel.
  destruct (digits_of_head (S (Z.to_nat (Z.log2 n))) n [])
    as [c [t [Hhead Hc]]]; [lia|].
  pose proof (digits_of_digit (S (Z.to_nat (Z.log2 n))) n [] Hn
                (Forall_nil _)) as Hdigits.
  pose proof (digits_of_value (S (Z.to_nat (Z.log2 n))) n []
                (conj Hn Hfuel)) as Hvalue.
  unfold unsigned. rewrite Hhead in *. unfold parse_unsigned.
  cbn [app]. destruct (N.eqb_spec c 48); [contradiction|].
  change (c :: t ++ rest) with ((c :: t) ++ rest).
  rewrite take_digits_app by assumption.
  unfold natural. rewrite Hvalue. reflexivity.
Qed.

Lemma digits_of_nonempty (fuel : nat) : forall (n : Z) (acc : jsstring),
  fuel <> O \/ acc <> [] -> digits_of fuel n acc <> [].
Proof.
  induction fuel as [|fuel IH]; intros n acc H.
  - destruct H as [H|H]; [contradiction | exact H].
  - cbn [digits_of]. destruct (n <? 10); [discriminate|].
    apply IH. right. discriminate.
Qed.

(** The first character of a number is a sign or a digit. *)
Lemma digits_head (z : Z) :
  exists c t, digits z = c :: t /\ (c = 45%N \/ is_digit c = true).
Proof.
  unfold digits. destruct (Z.ltb_spec z 0) as [Hneg|Hpos].
  - eexists. eexists. split; [reflexivity|]. left. reflexivity.
  - pose proof (digits_of_digit (S (Z.to_nat (Z.log2 z))) z [] Hpos
                  (Forall_nil _)) as Hdigits.
    pose proof (digits_of_nonempty (S (Z.to_nat (Z.log2 z))) z []
                  (or_introl (Nat.neq_succ_0 _))) as Hne.
    unfold unsigned. destruct (digits_of _ z []) as [|c t];
      [contradiction|].
    exists c, t. split; [reflexivity|]. right.
    apply Forall_inv in Hdigits. exact Hdigits.
Qed.

Lemma parse_number_digits (z : Z) (rest : jsstring) :
  delimited rest -> parse_number (digits z ++ rest) = Some (z, rest).
Proof.
  intro Hrest. unfold digits. destruct (Z.ltb_spec z 0) as [Hneg|Hpos].
  - cbn [app parse_number]. change (45 =? 45)%N with true. cbv iota.
    rewrite parse_unsigned_unsigned by (assumption || lia).
    f_equal. f_equal. lia.
  - destruct (digits_head z) as [c [t [Hhead Hc]]].
    unfold digits in Hhead. destruct (Z.ltb_spec z 0); [lia|].
    pose proof (parse_unsigned_unsigned z rest Hpos Hrest) as Hparse.
    rewrite Hhead in *. cbn [app] in *. unfold parse_number.
    destruct (N.eqb_spec c 45) as [->|_]; [|exact Hparse].
    exfalso. clear Hparse.
    pose proof (digits_of_digit (S (Z.to_nat (Z.log2 z))) z [] Hpos
                  (Forall_nil _)) as Hdigits.
    unfold unsigned in Hhead. rewrite Hhead in Hdigits.
    inversion Hdigits as [|? ? Hd _]. discriminate Hd.
Qed.

(** *** Strings *)

Lemma parse_chars_escape (k rest : jsstring) :
  plain k = true ->
  parse_chars (escape k ++ 34%N :: rest) = Some (k, rest).
Proof.
  induction k as [|c k IH]; intro Hk.
  - reflexivity.
  - cbn [plain forallb] in Hk. apply andb_prop in Hk as [Hc Hk].
    apply negb_true_iff in Hc. specialize (IH Hk).
    cbn [escape]. destruct ((c =? 34) || (c =? 92))%N eqn:Hesc.
    + cbn [app parse_chars]. change (92 =? 34)%N with false.
      change (92 =? 92)%N with true. cbv iota. rewrite Hesc, IH.
      reflexivity.
    + apply orb_false_elim in Hesc as [H34 H92].
      cbn [app parse_chars]. rewrite H34, H92, Hc, IH. reflexivity.
Qed.

(** *** White space *)

Lemma skip_ws_blank (lead s : jsstring) :
  blank lead -> skip_ws (lead ++ s) = skip_ws s.
Proof.
  intro H. induction H as [|c lead Hc _ IH]; [reflexivity|].
  cbn [app skip_ws]. rewrite Hc. exact IH.
Qed.

Lemma skip_ws_idem (s : jsstring) : skip_ws (skip_ws s) = skip_ws s.
Proof.
  induction s as [|c s IH]; [reflexivity|]. cbn [skip_ws].
  destruct (json_ws c) eqn:Hc; [exact IH|]. cbn [skip_ws]. rewrite Hc.
  reflexivity.
Qed.

Lemma blank_spaces (n : nat) : blank (spaces n).
Proof.
  unfold blank, spaces. induction n; simpl; constructor; auto.
Qed.

Lemma blank_brk (gap n : nat) : blank (brk gap n).
Proof.
  destruct gap; [constructor|]. constructor; [reflexivity|].
  apply blank_spaces.
Qed.

(** The parser does not see the white space before a value. *)
Lemma parse_value_blank (fuel : nat) (lead s : jsstring) :
  blank lead -> parse_value fuel (lead ++ s) = parse_value fuel s.
Proof.
  intro H. destruct fuel; [reflexivity|]. cbn [parse_value].
  rewrite skip_ws_blank by exact H. reflexivity.
Qed.

Lemma parse_elems_blank (fuel : nat) (lead s : jsstring) :
  blank lead -> parse_elems fuel (lead ++ s) = parse_elems fuel s.
Proof.
  intro H. destruct fuel; [reflexivity|]. cbn [parse_elems].
  rewrite parse_value_blank by exact H. reflexivity.
Qed.

Lemma parse_members_blank (fuel : nat) (lead s : jsstring) :
  blank lead -> parse_members fuel (lead ++ s) = parse_members fuel s.
Proof.
  intro H. destruct fuel; [reflexivity|]. cbn [parse_members].
  rewrite skip_ws_blank by exact H. reflexivity.
Qed.

(** *** Induction on values, through the lists they nest *)

Lemma value_nested_ind (P : value Z -> Prop) :
  P JNull ->
  (forall b, P (JBool b)) ->
  (forall z, P (JNum z)) ->
  (forall s, P (JStr s)) ->
  (forall elems, Forall P elems -> P (JArr elems)) ->
  (forall members, Forall (fun kv => P (snd kv)) members -> P (JObj members)) ->
  forall v, P v.
Proof.
  intros HNull HBool HNum HStr HArr HObj. fix IH 1.
  intros [|b|z|s|elems|members].
  - exact HNull.
  - apply HBool.
  - apply HNum.
  - apply HStr.
  - apply HArr. induction elems as [|x l IHl]; constructor.
    + apply IH.
    + exact IHl.
  - apply HObj. induction members as [|[k x] l IHl]; constructor.
    + apply IH.
    + exact IHl.
Qed.

(** *** Arrays and objects *)

Lemma join_cons (sep p q : jsstring) (parts : list jsstring) :
  join sep (p :: q :: parts) = p ++ sep ++ join sep (q :: parts).
Proof. reflexivity. Qed.

Lemma blank_not_digit (c : N) : json_ws c = true -> is_digit c = false.
Proof.
  unfold json_ws, is_digit. intro H.
  repeat (apply orb_prop in H as [H|H]); apply N.eqb_eq in H; subst c;
    reflexivity.
Qed.

(** What closes a list of items is not the continuation of a number. *)
Lemma delimited_closing (tail rest : jsstring) (closing : N) :
  blank tail -> is_digit closing = false ->
  delimited (tail ++ closing :: rest).
Proof.
  intros Htail Hc. destruct Htail as [|c tail Hws _]; simpl.
  - exact Hc.
  - apply blank_not_digit. exact Hws.
Qed.

Lemma parse_elems_join (gap indent : nat) (lead tail rest : jsstring) :
  blank lead -> blank tail ->
  forall elems : list (value Z),
    elems <> [] ->
    Forall reads_back elems ->
    forallb printable elems = true ->
    forall fuel : nat,
      (fold_right (fun x n => S (cost x + n)) O elems <= fuel)%nat ->
      parse_elems fuel
        (join (44%N :: lead) (map (stringify_at gap indent) elems)
           ++ tail ++ 93%N :: rest) = Some (elems, rest).
Proof.
  intros Hlead Htail elems.
  induction elems as [|x l IH]; intros Hne Hall Hprint fuel Hfuel;
    [contradiction|].
  apply Forall_cons_iff in Hall as [Hx Hl].
  cbn [forallb] in Hprint. apply andb_prop in Hprint as [Hpx Hpl].
  cbn [fold_right] in Hfuel.
  destruct fuel as [|fuel]; [lia|]. cbn [parse_elems].
  destruct l as [|y l'].
  - cbn [map join].
    rewrite (Hx gap indent (tail ++ 93%N :: rest) fuel Hpx);
      [|apply delimited_closing; [exact Htail | reflexivity] | lia].
    rewrite skip_ws_blank by exact Htail. reflexivity.
  - cbn [map]. rewrite join_cons. rewrite <- !app_assoc. cbn [app].
    rewrite (Hx gap indent _ fuel Hpx); [|reflexivity | lia].
    cbn [skip_ws]. change (json_ws 44) with false. cbv iota.
    change (44 =? 93)%N with false. change (44 =? 44)%N with true. cbv iota.
    rewrite parse_elems_blank by exact Hlead.
    change (stringify_at gap indent y :: map (stringify_at gap indent) l')
      with (map (stringify_at gap indent) (y :: l')).
    rewrite IH; [reflexivity | discriminate | exact Hl | exact Hpl |].
    cbn [fold_right] in *. lia.
Qed.

Lemma blank_colon_space (gap : nat) :
  blank match gap with O => [] | S _ => [32%N] end.
Proof. destruct gap; repeat constructor. Qed.

Lemma parse_members_join (gap indent : nat) (lead tail rest : jsstring) :
  blank lead -> blank tail ->
  forall members : list (jsstring * value Z),
    members <> [] ->
    Forall (fun kv => reads_back (snd kv)) members ->
    forallb (fun kv => match kv with (k, x) => plain k && printable x end)
      members = true ->
    forall fuel : nat,
      (fold_right (fun kv n => match kv with (_, x) => S (cost x + n) end)
         O members <= fuel)%nat ->
      parse_members fuel
        (join (44%N :: lead) (map (member_text gap indent) members)
           ++ tail ++ 125%N :: rest) = Some (members, rest).
Proof.
  intros Hlead Htail members.
  induction members as [|[k x] l IH]; intros Hne Hall Hprint fuel Hfuel;
    [contradiction|].
  apply Forall_cons_iff in Hall as [Hx Hl]. cbn [snd] in Hx.
  cbn [forallb] in Hprint. apply andb_prop in Hprint as [Hpx Hpl].
  apply andb_prop in Hpx as [Hk Hpx].
  cbn [fold_right] in Hfuel.
  destruct fuel as [|fuel]; [lia|]. cbn [parse_members].
  assert (Hmember : forall after : jsstring,
    delimited after ->
    skip_ws (member_text gap indent (k, x) ++ after)
    = 34%N :: escape k ++ 34%N :: colon gap
        ++ stringify_at gap indent x ++ after /\
    parse_value fuel
      (match gap with O => [] | S _ => [32%N] end
         ++ stringify_at gap indent x ++ after) = Some (x, after)).
  { intros after Hafter. split.
    - unfold member_text, quote. cbn [app]. rewrite <- !app_assoc.
      reflexivity.
    - rewrite parse_value_blank by apply blank_colon_space.
      apply Hx; [exact Hpx | exact Hafter | lia]. }
  destruct l as [|m l'].
  - cbn [map join].
    destruct (Hmember (tail ++ 125%N :: rest)) as [Hskip Hvalue];
      [apply delimited_closing; [exact Htail | reflexivity]|].
    rewrite Hskip. change (34 =? 34)%N with true. cbv iota.
    rewrite parse_chars_escape by exact Hk.
    unfold colon at 1. cbn [app skip_ws]. change (json_ws 58) with false.
    cbv iota. change (58 =? 58)%N with true. cbv iota.
    rewrite Hvalue. rewrite skip_ws_blank by exact Htail. reflexivity.
  - cbn [map]. rewrite join_cons. rewrite <- !app_assoc.
    destruct (Hmember ((44%N :: lead)
                ++ join (44%N :: lead)
                     (member_text gap indent m
                        :: map (member_text gap indent) l')
                ++ tail ++ 125%N :: rest)) as [Hskip Hvalue];
      [reflexivity|].
    rewrite Hskip. change (34 =? 34)%N with true. cbv iota.
    rewrite parse_chars_escape by exact Hk.
    unfold colon at 1. cbn [app skip_ws]. change (json_ws 58) with false.
    cbv iota. change (58 =? 58)%N with true. cbv iota.
    cbn [app] in Hvalue. rewrite Hvalue.
    cbn [skip_ws]. change (json_ws 44) with false. cbv iota.
    change (44 =? 125)%N with false. change (44 =? 44)%N with true. cbv iota.
    rewrite parse_members_blank by exact Hlead.
    change (member_text gap indent m :: map (member_text gap indent) l')
      with (map (member_text gap indent) (m :: l')).
    rewrite IH; [reflexivity | discriminate | exact Hl | exact Hpl |].
    cbn [fold_right] in *. destruct m. lia.
Qed.

(** *** Values *)

(** A number is told from the other values by its first character. *)
Lemma number_head (c : N) :
  c = 45%N \/ is_digit c = true ->
  json_ws c = false /\ (c =? 110)%N = false /\ (c =? 116)%N = false /\
  (c =? 102)%N = false /\ (c =? 34)%N = false /\ (c =? 91)%N = false /\
  (c =? 123)%N = false.
Proof.
  intros [->|H]; [repeat split; reflexivity|].
  unfold is_digit in H. apply andb_prop in H as [Hlo Hhi].
  apply N.leb_le in Hlo, Hhi. unfold json_ws.
  repeat split; rewrite ?orb_false_iff; repeat split; apply N.eqb_neq; lia.
Qed.

Lemma parse_value_atom (fuel : nat) (c : N) (s : jsstring) :
  json_ws c = false ->
  parse_value (S fuel) (c :: s) =
  match skip_ws (c :: s) with
  | [] => None
  | _ :: _ => parse_value (S fuel) (c :: s)
  end.
Proof. intro H. cbn [skip_ws]. rewrite H. reflexivity. Qed.

(** The first character of a value is not white space and does not
    close an array. *)
Lemma stringify_head (gap indent : nat) (v : value Z) :
  exists c t,
    stringify_at gap indent v = c :: t /\
    json_ws c = false /\ (c =? 93)%N = false.
Proof.
  destruct v as [|b|z|s|elems|members]; cbn [stringify_at].
  - eexists. eexists. repeat split.
  - destruct b; eexists; eexists; repeat split.
  - destruct (digits_head z) as [c [t [Hhead Hc]]]. exists c, t.
    split; [exact Hhead|]. destruct Hc as [->|Hc]; [split; reflexivity|].
    split; [apply (number_head c); right; exact Hc|].
    unfold is_digit in Hc. apply andb_prop in Hc as [_ Hhi].
    apply N.leb_le in Hhi. apply N.eqb_neq. lia.
  - eexists. eexists. repeat split.
  - unfold wrap. destruct (map _ elems); eexists; eexists; repeat split.
  - unfold wrap. destruct (map _ members); eexists; eexists; repeat split.
Qed.

(** The parser finds the first item behind the white space. *)
Lemma skip_ws_items (lead sep p after : jsstring) (parts : list jsstring)
  (c : N) (t : jsstring) :
  blank lead -> p = c :: t -> json_ws c = false ->
  exists s, skip_ws (lead ++ join sep (p :: parts) ++ after) = c :: s.
Proof.
  intros Hlead -> Hc. rewrite skip_ws_blank by exact Hlead.
  destruct parts as [|q parts]; [cbn [join] | rewrite join_cons];
    cbn [app skip_ws]; rewrite Hc; eexists; reflexivity.
Qed.

Theorem parse_value_stringify (v : value Z) : reads_back v.
Proof.
  induction v as [|b|z|s|elems IH|members IH] using value_nested_ind;
    intros gap indent rest fuel Hprint Hrest Hfuel;
    (destruct fuel as [|fuel]; [simpl in Hfuel; lia|]).
  - reflexivity.
  - destruct b; reflexivity.
  - cbn [stringify_at].
    pose proof (parse_number_digits z rest Hrest) as Hnum.
    destruct (digits_head z) as [c [t [Hhead Hc]]]. rewrite Hhead in *.
    apply number_head in Hc as [Hws [H1 [H2 [H3 [H4 [H5 H6]]]]]].
    cbn [app parse_value skip_ws] in *.
    rewrite Hws, H1, H2, H3, H4, H5, H6, Hnum. reflexivity.
  - cbn [stringify_at printable] in *. unfold quote.
    cbn [app parse_value skip_ws]. change (json_ws 34) with false. cbv iota.
    change (34 =? 110)%N with false. change (34 =? 116)%N with false.
    change (34 =? 102)%N with false. change (34 =? 34)%N with true.
    cbv iota. rewrite <- app_assoc. cbn [app].
    rewrite parse_chars_escape by exact Hprint. reflexivity.
  - cbn [stringify_at printable cost] in *. apply le_S_n in Hfuel.
    destruct elems as [|x l]; [reflexivity|].
    pose proof (parse_elems_join gap (indent + gap) (brk gap (indent + gap))
                  (brk gap indent) rest (blank_brk _ _) (blank_brk _ _)
                  (x :: l) ltac:(discriminate) IH Hprint fuel Hfuel) as Hitems.
    destruct (stringify_head gap (indent + gap) x) as [c [t [Hx [Hws Hc]]]].
    destruct (skip_ws_items (brk gap (indent + gap))
                (44%N :: brk gap (indent + gap))
                (stringify_at gap (indent + gap) x)
                (brk gap indent ++ 93%N :: rest)
                (map (stringify_at gap (indent + gap)) l) c t
                (blank_brk _ _) Hx Hws) as [after Hskip].
    cbn [map] in Hitems.
    unfold wrap. cbn [map app]. rewrite <- !app_assoc.
    cbn [app parse_value skip_ws]. change (json_ws 91) with false. cbv iota.
    change (91 =? 110)%N with false. change (91 =? 116)%N with false.
    change (91 =? 102)%N with false. change (91 =? 34)%N with false.
    change (91 =? 91)%N with true. cbv iota.
    rewrite Hskip, Hc. rewrite parse_elems_blank by apply blank_brk.
    rewrite Hitems. reflexivity.
  - cbn [stringify_at printable cost] in *. apply le_S_n in Hfuel.
    destruct members as [|[k x] l]; [reflexivity|].
    change (fun kv : jsstring * value Z =>
              let (k0, x0) := kv in
              quote k0 ++ colon gap ++ stringify_at gap (indent + gap) x0)
      with (member_text gap (indent + gap)).
    pose proof (parse_members_join gap (indent + gap)
                  (brk gap (indent + gap)) (brk gap indent) rest
                  (blank_brk _ _) (blank_brk _ _)
                  ((k, x) :: l) ltac:(discriminate) IH Hprint fuel Hfuel)
      as Hitems.
    destruct (skip_ws_items (brk gap (indent + gap))
                (44%N :: brk gap (indent + gap))
                (member_text gap (indent + gap) (k, x))
                (brk gap indent ++ 125%N :: rest)
                (map (member_text gap (indent + gap)) l) 34%N
                (escape k ++ [34%N] ++ colon gap
                   ++ stringify_at gap (indent + gap) x)
                (blank_brk _ _)) as [after Hskip].
    { unfold member_text, quote. cbn [app]. rewrite <- !app_assoc.
      reflexivity. }
    { reflexivity. }
    cbn [map] in Hitems.
    unfold wrap. cbn [map app]. rewrite <- !app_assoc.
    cbn [app parse_value skip_ws]. change (json_ws 123) with false. cbv iota.
    change (123 =? 110)%N with false. change (123 =? 116)%N with false.
    change (123 =? 102)%N with false. change (123 =? 34)%N with false.
    change (123 =? 91)%N with false. change (123 =? 123)%N with true.
    cbv iota.
    match goal with
    | |- context [skip_ws ?text] =>
        replace (skip_ws text) with (34%N :: after) by (symmetry; exact Hskip)
    end.
    change (34 =? 125)%N with false. cbv iota.
    rewrite parse_members_blank by apply blank_brk.
    match goal with
    | |- context [parse_members fuel ?text] =>
        replace (parse_members fuel text) with (Some ((k, x) :: l, rest))
          by (symmetry; exact Hitems)
    end.
    reflexivity.
Qed.

(** *** The fuel [parse] gives is enough *)

Lemma elems_cost_le (gap indent : nat) (lead : jsstring)
  (elems : list (value Z)) :
  Forall (fun x => (cost x <= length (stringify_at gap indent x))%nat) elems ->
  (fold_right (fun x n => S (cost x + n)) O elems
   <= S (length (join (44%N :: lead) (map (stringify_at gap indent) elems))))%nat.
Proof.
  induction elems as [|x l IH]; intro H; [cbn; lia|].
  apply Forall_cons_iff in H as [Hx Hl]. specialize (IH Hl).
  destruct l as [|y l'].
  - cbn [map join fold_right]. lia.
  - cbn [map]. rewrite join_cons. rewrite !length_app.
    cbn [map fold_right length] in *. lia.
Qed.

Lemma members_cost_le (gap indent : nat) (lead : jsstring)
  (members : list (jsstring * value Z)) :
  Forall (fun kv => (cost (snd kv)
                     <= length (stringify_at gap indent (snd kv)))%nat)
    members ->
  (fold_right (fun kv n => match kv with (_, x) => S (cost x + n) end)
     O members
   <= S (length (join (44%N :: lead) (map (member_text gap indent) members))))%nat.
Proof.
  induction members as [|[k x] l IH]; intro H; [cbn; lia|].
  apply Forall_cons_iff in H as [Hx Hl]. specialize (IH Hl).
  cbn [snd] in Hx.
  assert (Hm : (cost x <= length (member_text gap indent (k, x)))%nat).
  { unfold member_text. rewrite !length_app. lia. }
  destruct l as [|m l'].
  - cbn [map join fold_right]. lia.
  - cbn [map]. rewrite join_cons. rewrite !length_app.
    cbn [map fold_right length] in *. lia.
Qed.

Lemma cost_le_length (v : value Z) :
  forall gap indent : nat, (cost v <= length (stringify_at gap indent v))%nat.
Proof.
  induction v as [|b|z|s|elems IH|members IH] using value_nested_ind;
    intros gap indent; cbn [stringify_at cost].
  - cbn. lia.
  - destruct b; cbn; lia.
  - destruct (digits_head z) as [c [t [-> _]]]. cbn [length]. lia.
  - unfold quote. cbn [length]. lia.
  - destruct elems as [|x l]; [cbn; lia|].
    pose proof (elems_cost_le gap (indent + gap) (brk gap (indent + gap))
                  (x :: l)) as H.
    unfold wrap. cbn [map] in *. cbn [length]. rewrite !length_app.
    apply le_n_S. etransitivity; [apply H|].
    + apply Forall_forall. intros y Hy.
      apply (proj1 (Forall_forall _ _) IH y Hy).
    + cbn [length]. lia.
  - destruct members as [|m l]; [cbn; lia|].
    pose proof (members_cost_le gap (indent + gap) (brk gap (indent + gap))
                  (m :: l)) as H.
    change (fun kv : jsstring * value Z =>
              let (k0, x0) := kv in
              quote k0 ++ colon gap ++ stringify_at gap (indent + gap) x0)
      with (member_text gap (indent + gap)).
    unfold wrap. cbn [map] in *. cbn [length]. rewrite !length_app.
    apply le_n_S. etransitivity; [apply H|].
    + apply Forall_forall. intros kv Hkv.
      apply (proj1 (Forall_forall _ _) IH kv Hkv).
    + unfold jsstring in *. cbn [length]. lia.
Qed.

(** [JSON.parse(JSON.stringify(v, null, space))] is [v]. *)
Theorem parse_stringify (v : value Z) (space : Z) :
  printable v = true -> parse (stringify v space) = Some v.
Proof.
  intro Hprint. unfold parse, stringify.
  set (gap := Z.to_nat (Z.min space 10)).
  pose proof (parse_value_stringify v gap 0%nat []
                (S (length (stringify_at gap 0 v))) Hprint I) as H.
  rewrite app_nil_r in H. rewrite H; [reflexivity|].
  pose proof (cost_le_length v gap 0%nat). lia.
Qed.

(** *** [trim] leaves the text of an array as it is *)

Lemma trimEnd_last (s t : jsstring) (c : N) :
  is_whitespace c = false -> trimEnd (s ++ [c]) = s ++ [c].
Proof.
  intro Hc. unfold trimEnd. rewrite rev_app_distr. cbn [rev app trimStart].
  rewrite Hc. change (c :: rev s) with ([c] ++ rev s).
  rewrite <- (rev_involutive [c]) at 1. rewrite <- rev_app_distr.
  apply rev_involutive.
Qed.

Lemma wrap_shape (gap indent : nat) (opening closing : N)
  (items : list jsstring) :
  exists mid, wrap gap indent opening closing items = opening :: mid ++ [closing].
Proof.
  unfold wrap. destruct items as [|p parts].
  - exists []. reflexivity.
  - eexists. rewrite !app_assoc. reflexivity.
Qed.

Lemma trim_array (gap indent : nat) (elems : list (value Z)) :
  trim (stringify_at gap indent (JArr elems))
  = stringify_at gap indent (JArr elems) /\
  stringify_at gap indent (JArr elems) <> [].
Proof.
  cbn [stringify_at].
  destruct (wrap_shape gap indent 91%N 93%N
              (map (stringify_at gap (indent + gap)) elems)) as [mid ->].
  split; [|discriminate].
  unfold trim. cbn [trimStart]. change (is_whitespace 91) with false.
  cbv iota. change (91%N :: mid ++ [93%N]) with ((91%N :: mid) ++ [93%N]).
  apply (trimEnd_last _ []). reflexivity.
Qed.

(** The codec law the round trip of the store asks of the runtime. *)
Theorem codec_law (records : list (value Z)) :
  printable (JArr records) = true ->
  parses_to (JSON_stringify (JArr records) 2) (JArr records).
Proof.
  intro Hprint. unfold parses_to. cbn [JSON_stringify JSON_parse runtime].
  unfold stringify.
  destruct (trim_array (Z.to_nat (Z.min 2 10)) 0 records) as [-> Hne].
  split; [exact Hne|]. apply (parse_stringify (JArr records) 2 Hprint).
Qed.

(** On this runtime the store gives back every printable sequence of
    records. *)
Corollary store_round_trip (amb_w amb_r : Env) (records : list (value Z))
  (st : State Z) :
  acquires amb_w ->
  writeFile_error amb_w = None ->
  acquires amb_r ->
  readFile_error amb_r = None ->
  printable (JArr records) = true ->
  fst (lerUsuarios amb_r 0 (snd (salvarUsuarios amb_w (JArr records) st))) =
  Normal (JArr records).
Proof.
  intros Hw Hwrite Hr Hread Hprint.
  rewrite (lerUsuarios_array amb_r 0 _ records); try assumption.
  - reflexivity.
  - rewrite salvarUsuarios_written by assumption.
    apply codec_law. exact Hprint.
Qed.

End MiniFacts.

(* ================================================================== *)
(** ** The properties on concrete files *)

Import Examples.

Lemma abc_text_parses : parses_to abc_text (JArr abc).
Proof. split; [vm_compute; discriminate | vm_compute; reflexivity]. Defined.

(** The lock is busy six times: the function is not run. *)
Lemma comLock_exhausted_never_runs_witness :
  exhausted busy /\
  comLock busy failing_action (file abc_text) =
  (Throw ELOCKED, file abc_text).
Proof.
  split; [reflexivity|].
  exact (proj1 (comLock_exhausted_never_runs busy failing_action
                  (file abc_text) eq_refl)).
Defined.

(** The function throws and [release] throws: the call throws what the
    function threw, and [release] was called once. *)
Lemma comLock_scoped_release_witness :
  acquires stuck_release /\
  fst (comLock stuck_release failing_action (file abc_text)) =
  Throw TypeError /\
  releases
    (lock_history (snd (comLock stuck_release failing_action (file abc_text))))
  = 1%nat.
Proof.
  split; [reflexivity|].
  pose proof (comLock_scoped_release stuck_release failing_action
                (file abc_text) eq_refl) as H.
  cbv zeta in H. destruct H as [Hresult [Hcount _]].
  split; [exact Hresult | exact Hcount].
Defined.

(** The scenario of the specification: [read(0)], [read(100)], [read(2)]
    and [read(-1)] on three records. *)
Lemma lerUsuarios_limit_selection_witness :
  parses_to abc_text (JArr abc) /\
  fst (lerUsuarios contended 0 (file abc_text)) = Normal (JArr abc) /\
  fst (lerUsuarios contended 100 (file abc_text)) = Normal (JArr abc) /\
  fst (lerUsuarios contended 2 (file abc_text)) =
  Normal (JArr [record "a"; record "b"]) /\
  fst (lerUsuarios contended (-1) (file abc_text)) = Normal (JArr []).
Proof.
  split; [exact abc_text_parses|].
  pose proof (fun num =>
    lerUsuarios_limit_selection contended (file abc_text) abc num
      eq_refl eq_refl abc_text_parses) as H.
  cbv zeta in H. split; [|split; [|split]].
  - exact (proj1 (H 0) eq_refl).
  - exact (proj1 (proj2 (H 100)) eq_refl).
  - apply (proj1 (proj2 (proj2 (H 2)))). split; [reflexivity | discriminate].
  - exact (proj2 (proj2 (proj2 (H (-1)))) eq_refl).
Defined.

(** A busy lock makes the call throw; an unreadable file gives the empty
    array; a file that holds an array gives an array. *)
Lemma lerUsuarios_completion_witness :
  fst (lerUsuarios busy 2 (file abc_text)) = Throw ELOCKED /\
  fst (lerUsuarios unreadable 2 (file abc_text)) = Normal (JArr []) /\
  exists records,
    fst (lerUsuarios unreadable 2 (file abc_text)) = Normal (JArr records).
Proof.
  pose proof (lerUsuarios_completion busy 2 (file abc_text)) as Hb.
  pose proof (lerUsuarios_completion unreadable 2 (file abc_text)) as Hu.
  cbv zeta in Hb, Hu. destruct Hb as [Hb _]. destruct Hu as [_ Hu].
  destruct (Hu eq_refl) as [_ [Hempty Harr]].
  split; [|split].
  - exact (Hb eq_refl).
  - apply Hempty. left. discriminate.
  - apply Harr. intros v [_ Hv]. exists abc.
    pose proof (proj2 abc_text_parses) as Habc.
    change (arquivo (file abc_text)) with abc_text in Hv. congruence.
Defined.

(** A file of two spaces and a line feed, and a file with an array that
    is not closed. *)
Lemma lerUsuarios_blank_or_malformed_witness :
  fst (lerUsuarios calm 3 (file [32; 32; 10]%N)) = Normal (JArr []) /\
  malformed (js "[1, 2") /\
  fst (lerUsuarios calm 3 (file (js "[1, 2"))) = Normal (JArr []) /\
  In (error, ErroAoLer SyntaxError)
    (console (snd (lerUsuarios calm 3 (file (js "[1, 2"))))).
Proof.
  assert (Hbad : malformed (js "[1, 2"))
    by (split; [vm_compute; discriminate | vm_compute; reflexivity]).
  split; [|split; [exact Hbad|]].
  - apply (proj1 (lerUsuarios_blank_or_malformed calm 3
                     (file [32; 32; 10]%N) eq_refl)).
    repeat constructor.
  - exact (proj2 (lerUsuarios_blank_or_malformed calm 3 (file (js "[1, 2"))
                    eq_refl) eq_refl Hbad).
Defined.

(** A file that holds the object [{}], and one that holds an object whose
    [length] has no primitive. *)
Lemma lerUsuarios_non_array_witness :
  parses_to (js "{}") (JObj []) /\
  fst (lerUsuarios calm 0 (file (js "{}"))) = Normal (JObj []) /\
  fst (lerUsuarios calm 5 (file (js "{}"))) = Normal (JArr []) /\
  parses_to hidden_length_text hidden_length /\
  fst (lerUsuarios calm 0 (file hidden_length_text)) = Normal (JArr []).
Proof.
  assert (Hobj : parses_to (js "{}") (JObj []))
    by (split; [vm_compute; discriminate | vm_compute; reflexivity]).
  assert (Hhid : parses_to hidden_length_text hidden_length)
    by (split; [vm_compute; discriminate | vm_compute; reflexivity]).
  split; [exact Hobj|].
  destruct (lerUsuarios_non_array calm (file (js "{}")) (JObj [])
              eq_refl eq_refl Hobj) as [Hzero [Hlimit _]].
  split; [|split; [|split; [exact Hhid|]]].
  - apply Hzero. left. reflexivity.
  - apply Hlimit; [reflexivity | discriminate].
  - destruct (lerUsuarios_non_array calm (file hidden_length_text)
                hidden_length eq_refl eq_refl Hhid)
      as [_ [_ [_ [_ Hmember]]]].
    destruct (Hmember _ (JObj [(js "toString", JNum 1)]) eq_refl eq_refl)
      as [_ Hthrows].
    apply Hthrows. reflexivity.
Defined.

(** The file held something else: it holds the three records now. *)
Lemma salvarUsuarios_overwrites_witness :
  acquires contended /\
  arquivo (snd (salvarUsuarios contended (JArr abc) (file (js "[1, 2")))) =
  abc_text.
Proof.
  split; [reflexivity|].
  exact (proj2 (salvarUsuarios_overwrites contended abc (file (js "[1, 2"))
                  eq_refl eq_refl)).
Defined.

(** The disk is full: the call returns, the error is printed. *)
Lemma salvarUsuarios_swallows_failure_witness :
  fst (salvarUsuarios disk_full (JArr abc) (file abc_text)) = Normal tt /\
  console (snd (salvarUsuarios disk_full (JArr abc) (file abc_text))) =
  [(error, ErroAoSalvar (SystemError "ENOSPC"))].
Proof.
  exact (salvarUsuarios_swallows_failure disk_full abc (file abc_text)
           (SystemError "ENOSPC") [] eq_refl eq_refl).
Defined.

(** The scenario of the specification, on a file that was empty. *)
Lemma salvar_ler_round_trip_witness :
  fst (lerUsuarios contended 0 (snd (salvarUsuarios calm (JArr abc) (file []))))
  = Normal (JArr abc).
Proof.
  exact (salvar_ler_round_trip calm contended abc (file [])
           eq_refl eq_refl eq_refl eq_refl abc_text_parses).
Defined.

(** *** Where the specification and the code part *)

(** C3 as stated fails: with the lock held at every attempt,
    [lerUsuarios] throws instead of returning a sequence. *)
Lemma lerUsuarios_throws_when_locked :
  exhausted busy /\
  fst (lerUsuarios busy 0 (file abc_text)) = Throw ELOCKED /\
  ~ exists records : list (value Z),
      fst (lerUsuarios busy 0 (file abc_text)) = Normal (JArr records).
Proof.
  split; [reflexivity|]. split; [reflexivity|].
  intros [records H]. vm_compute in H. discriminate.
Qed.

(** C10 as stated fails: the text [null] is valid JSON and not an array,
    and [lerUsuarios(0)] returns the empty array, not [null]. *)
Lemma lerUsuarios_null_is_empty :
  parses_to (js "null") (JNull : value Z) /\
  fst (lerUsuarios calm 0 (file (js "null"))) = Normal (JArr []) /\
  fst (lerUsuarios calm 0 (file (js "null"))) <> Normal JNull.
Proof.
  split; [split; [vm_compute; discriminate | vm_compute; reflexivity]|].
  split; [reflexivity|]. vm_compute. discriminate.
Qed.

(* ================================================================== *)
(** ** Properties of the store beyond the specification, and of the
    routes *)

Section RouteProperties.

Context {number : Type} `{RT : Runtime number} `{TR : Truth number}.

Notation value := (value number).
Notation State := (State number).
Notation M := (M number).

(** *** Reading leaves the file alone *)

Lemma keeps_file_bind {A B} (m : M A) (k : A -> M B) :
  keeps_file m -> (forall a, keeps_file (k a)) -> keeps_file (bind m k).
Proof.
  intros Hm Hk st. unfold bind. specialize (Hm st).
  destruct (m st) as [[a|e] st']; simpl in *.
  - rewrite Hk. exact Hm.
  - exact Hm.
Qed.

Lemma keeps_file_try_catch {A} (m : M A) (handler : exn -> M A) :
  keeps_file m -> (forall e, keeps_file (handler e)) ->
  keeps_file (try_catch m handler).
Proof.
  intros Hm Hh st. unfold try_catch. specialize (Hm st).
  destruct (m st) as [[a|e] st']; simpl in *.
  - exact Hm.
  - rewrite Hh. exact Hm.
Qed.

Lemma keeps_file_ret {A} (a : A) : keeps_file (ret (number := number) a).
Proof. intro st. reflexivity. Qed.

Lemma keeps_file_throw {A} (e : exn) :
  keeps_file (throw (number := number) (A := A) e).
Proof. intro st. reflexivity. Qed.

Lemma keeps_file_console_print (lv : level) (msg : message number) :
  keeps_file (console_print lv msg).
Proof. intro st. reflexivity. Qed.

Lemma keeps_file_get_length (v : value) : keeps_file (get_length v).
Proof.
  intro st. destruct v as [|b|x|s|elems|members]; try reflexivity.
  unfold get_length. destruct (get_member _ members); reflexivity.
Qed.

Lemma keeps_file_slice0 (v : value) (fim : Z) : keeps_file (slice0 v fim).
Proof. intro st. destruct v; reflexivity. Qed.

Lemma keeps_file_convert (p : property number) : keeps_file (convert p).
Proof.
  intro st. unfold convert. destruct (numeric p); reflexivity.
Qed.

Lemma keeps_file_retornar (v : value) : keeps_file (retornar v).
Proof.
  unfold retornar. apply keeps_file_bind; [apply keeps_file_get_length|].
  intro len. apply keeps_file_bind; [apply keeps_file_convert|].
  intros _. apply keeps_file_bind; [apply keeps_file_console_print|].
  intros _. apply keeps_file_ret.
Qed.

Lemma keeps_file_limitar (num : Z) (arr : value) : keeps_file (limitar num arr).
Proof.
  unfold limitar. apply keeps_file_bind.
  - destruct (0 <? num); [|apply keeps_file_ret].
    apply keeps_file_bind; [apply keeps_file_get_length|].
    intro len. apply keeps_file_bind; [apply keeps_file_convert|].
    intro x. apply keeps_file_ret.
  - intros [|].
    + apply keeps_file_bind; [apply keeps_file_slice0|].
      intro v. apply keeps_file_retornar.
    + apply keeps_file_bind; [apply keeps_file_get_length|].
      intro len. apply keeps_file_bind; [apply keeps_file_convert|].
      intro x. destruct (js_gt num x); [apply keeps_file_retornar|].
      destruct (num =? 0);
        (apply keeps_file_bind; [apply keeps_file_console_print|]); intros _;
        [apply keeps_file_retornar | apply keeps_file_ret].
Qed.

Lemma keeps_file_lerUsuarios_fn (amb : Env) (num : Z) :
  keeps_file (lerUsuarios_fn amb num).
Proof.
  unfold lerUsuarios_fn. apply keeps_file_try_catch.
  - apply keeps_file_bind.
    + intro st. unfold fs_readFile. destruct (readFile_error amb); reflexivity.
    + intro dados. apply keeps_file_bind; [apply keeps_file_console_print|].
      intros _. destruct (trim dados) as [|c t].
      * apply keeps_file_bind; [apply keeps_file_console_print|].
        intros _. apply keeps_file_ret.
      * destruct (JSON_parse (c :: t)); [apply keeps_file_limitar|].
        apply keeps_file_throw.
  - intro e. apply keeps_file_bind; [apply keeps_file_console_print|].
    intros _. apply keeps_file_ret.
Qed.

Lemma keeps_file_comLock {A} (amb : Env) (fn : M A) :
  keeps_file fn -> keeps_file (comLock amb fn).
Proof.
  intros Hfn st. destruct (acquires_or_exhausted amb) as [H|H].
  - rewrite comLock_acquires by exact H. simpl. apply (Hfn (locked st)).
  - rewrite comLock_exhausted by exact H. reflexivity.
Qed.

Lemma keeps_file_lerUsuarios (amb : Env) (num : Z) :
  keeps_file (lerUsuarios amb num).
Proof.
  apply (keeps_file_comLock amb (lerUsuarios_fn amb num)).
  apply keeps_file_lerUsuarios_fn.
Qed.

(** X1: [lerUsuarios] never changes the file, whatever the limit, the
    content and the failures of the environment. *)
Theorem lerUsuarios_never_writes (amb : Env) (num : Z) (st : State) :
  arquivo (snd (lerUsuarios amb num st)) = arquivo st.
Proof.
  unfold lerUsuarios. destruct (acquires_or_exhausted amb) as [H|H].
  - rewrite comLock_acquires by exact H. cbn [snd unlocked arquivo].
    rewrite keeps_file_lerUsuarios_fn. reflexivity.
  - rewrite comLock_exhausted by exact H. reflexivity.
Qed.

(** X2: a write that fails and leaves the file blank or unparseable still
    returns normally, and the next read returns the empty array without
    an error: the collection is lost silently. *)
Theorem failed_write_empties_collection (amb_w amb_r : Env)
  (usuarios : value) (st : State) (e : exn) (residue : jsstring) (num : Z) :
  acquires amb_w ->
  writeFile_error amb_w = Some (e, residue) ->
  acquires amb_r ->
  readFile_error amb_r = None ->
  whitespace_only residue \/ malformed residue ->
  fst (salvarUsuarios amb_w usuarios st) = Normal tt /\
  fst (lerUsuarios amb_r num (snd (salvarUsuarios amb_w usuarios st))) =
  Normal (JArr []).
Proof.
  intros Hw Hwrite Hr Hread Hres.
  rewrite (salvarUsuarios_failed amb_w usuarios st e residue) by assumption.
  split; [reflexivity|]. cbn [snd].
  rewrite lerUsuarios_acquires by exact Hr.
  destruct Hres as [Hblank|Hbad].
  - apply lerUsuarios_fn_blank. exact Hblank.
  - rewrite lerUsuarios_fn_malformed; [reflexivity | exact Hread | exact Hbad].
Qed.

(** *** [GET /list-users/:count?] *)

(** With a positive limit the store returns the first [num] records. *)
Lemma lerUsuarios_prefix (amb : Env) (num : Z) (st : State)
  (records : list value) :
  acquires amb ->
  readFile_error amb = None ->
  parses_to (arquivo st) (JArr records) ->
  0 < num ->
  fst (lerUsuarios amb num st) = Normal (JArr (firstn (Z.to_nat num) records)).
Proof.
  intros Hlock Hread Hparse Hnum.
  rewrite (lerUsuarios_array amb num st records) by assumption.
  destruct (Z.eqb_spec num 0); [lia|].
  destruct (Z.ltb_spec num 0); [lia|].
  destruct (Z.leb_spec num (Z.of_nat (length records))); [reflexivity|].
  rewrite firstn_all2 by lia. reflexivity.
Qed.

(** The limit the route computes, and what it prints on the way. *)
Lemma limite_run (count : option jsstring) (sv : Server number) :
  exists out,
    limite count sv =
    (Normal
       (match parseInt10 count with
        | None => 100
        | Some n =>
            if n =? 0 then 10000
            else if n <? 0 then 100
            else if 1000 <? n then 1000
            else n
        end),
     mkServer (store sv) (printed sv ++ out)).
Proof.
  unfold limite, bindH, server_print, retH.
  destruct (parseInt10 count) as [n|].
  - destruct (n =? 0); [eexists; reflexivity|].
    destruct (n <? 0);
      [exists []; rewrite app_nil_r; destruct sv; reflexivity|].
    destruct (1000 <? n); [eexists; reflexivity|].
    exists []. rewrite app_nil_r. destruct sv. reflexivity.
  - exists []. rewrite app_nil_r. destruct sv. reflexivity.
Qed.

Lemma limite_range (count : option jsstring) :
  let n := match parseInt10 count with
           | None => 100
           | Some n =>
               if n =? 0 then 10000
               else if n <? 0 then 100
               else if 1000 <? n then 1000
               else n
           end in
  1 <= n <= 10000.
Proof.
  cbv zeta. destruct (parseInt10 count) as [n|]; [|lia].
  destruct (Z.eqb_spec n 0); [lia|].
  destruct (Z.ltb_spec n 0); [lia|].
  destruct (Z.ltb_spec 1000 n); lia.
Qed.

(** The answer of the route, from the limit it computed. *)
Lemma list_users_run (amb : Env) (count : option jsstring)
  (sv : Server number) (records : list value) :
  acquires amb ->
  readFile_error amb = None ->
  parses_to (arquivo (store sv)) (JArr records) ->
  fst (list_users amb count sv) =
  Normal (mkResponse 200
            (Usuarios
               (JArr (firstn
                        (Z.to_nat
                           (match parseInt10 count with
                            | None => 100
                            | Some n =>
                                if n =? 0 then 10000
                                else if n <? 0 then 100
                                else if 1000 <? n then 1000
                                else n
                            end)) records)))).
Proof.
  intros Hlock Hread Hparse.
  pose proof (limite_range count) as Hrange. cbv zeta in Hrange.
  destruct (limite_run count sv) as [out Hrun].
  unfold list_users, bindH. rewrite Hrun.
  unfold try_catchH, bindH, call, retH. cbn [store].
  match type of Hrange with
  | 1 <= ?n <= _ =>
      pose proof (lerUsuarios_prefix amb n (store sv) records Hlock Hread
                    Hparse ltac:(lia)) as Hfst
  end.
  destruct (lerUsuarios amb _ (store sv)) as [r st']. cbn [fst] in Hfst.
  subst r. reflexivity.
Qed.

(** X3: on a store that holds [L] records the route answers 200 with the
    first records of the collection: 100 of them when [count] is absent,
    not a number or negative, 10000 when it is zero, 1000 when it is above
    1000, and [count] of them otherwise. *)
Theorem list_users_selection (amb : Env) (count : option jsstring)
  (sv : Server number) (records : list value) :
  acquires amb ->
  readFile_error amb = None ->
  parses_to (arquivo (store sv)) (JArr records) ->
  let answer := fst (list_users amb count sv) in
  let first k :=
    Normal (mkResponse 200 (Usuarios (JArr (firstn (Z.to_nat k) records)))) in
  (parseInt10 count = None -> answer = first 100) /\
  (parseInt10 count = Some 0 -> answer = first 10000) /\
  (forall n, parseInt10 count = Some n -> n < 0 -> answer = first 100) /\
  (forall n, parseInt10 count = Some n -> 1000 < n -> answer = first 1000) /\
  (forall n, parseInt10 count = Some n -> 0 < n <= 1000 -> answer = first n).
Proof.
  intros Hlock Hread Hparse answer first. subst answer first.
  rewrite (list_users_run amb count sv records) by assumption.
  split; [|split; [|split; [|split]]].
  - intros ->. reflexivity.
  - intros ->. reflexivity.
  - intros n -> Hn. destruct (Z.eqb_spec n 0); [lia|].
    destruct (Z.ltb_spec n 0); [reflexivity | lia].
  - intros n -> Hn. destruct (Z.eqb_spec n 0); [lia|].
    destruct (Z.ltb_spec n 0); [lia|].
    destruct (Z.ltb_spec 1000 n); [reflexivity | lia].
  - intros n -> Hn. destruct (Z.eqb_spec n 0); [lia|].
    destruct (Z.ltb_spec n 0); [lia|].
    destruct (Z.ltb_spec 1000 n); [lia | reflexivity].
Qed.

(** X4: whatever [count] is, the route answers with a prefix of the
    collection that stops after at least 1 and at most 10000 records: it
    is empty only when the collection is, and it is never the whole of a
    collection of more than 10000 records. *)
Theorem list_users_bounded (amb : Env) (count : option jsstring)
  (sv : Server number) (records : list value) :
  acquires amb ->
  readFile_error amb = None ->
  parses_to (arquivo (store sv)) (JArr records) ->
  exists k : Z,
    1 <= k <= 10000 /\
    fst (list_users amb count sv) =
    Normal (mkResponse 200 (Usuarios (JArr (firstn (Z.to_nat k) records)))) /\
    Z.of_nat (length (firstn (Z.to_nat k) records)) =
    Z.min k (Z.of_nat (length records)).
Proof.
  intros Hlock Hread Hparse.
  rewrite (list_users_run amb count sv records) by assumption.
  pose proof (limite_range count) as Hrange. cbv zeta in Hrange.
  eexists. split; [exact Hrange|]. split; [reflexivity|].
  rewrite length_firstn. lia.
Qed.

(** X5: the route always answers and never changes the file; it answers
    500 when the lock cannot be acquired and 200 otherwise, also when the
    file cannot be read or parsed. *)
Theorem list_users_answers (amb : Env) (count : option jsstring)
  (sv : Server number) :
  arquivo (store (snd (list_users amb count sv))) = arquivo (store sv) /\
  exists answer,
    fst (list_users amb count sv) = Normal answer /\
    (exhausted amb -> answer = mkResponse 500 (Falha NaoFoiPossivelLer)) /\
    (acquires amb -> status answer = 200).
Proof.
  destruct (limite_run count sv) as [out Hrun].
  unfold list_users, bindH. rewrite Hrun.
  unfold try_catchH, bindH, call, retH, server_print. cbn [store].
  match goal with
  | |- context [lerUsuarios amb ?n (store sv)] =>
      pose proof (keeps_file_lerUsuarios amb n (store sv)) as Hfile;
      pose proof (lerUsuarios_acquires amb n (store sv)) as Hacq;
      pose proof (lerUsuarios_fn_returns amb n (locked (store sv))) as Hret;
      pose proof (comLock_exhausted amb (lerUsuarios_fn amb n) (store sv))
        as Hexh;
      fold (lerUsuarios amb n) in Hexh;
      destruct (lerUsuarios amb n (store sv)) as [[todos|e] st']
  end; cbn [fst snd store] in *.
  - split; [exact Hfile|]. eexists. split; [reflexivity|]. split.
    + intro H. specialize (Hexh H). discriminate.
    + reflexivity.
  - split; [exact Hfile|]. eexists. split; [reflexivity|]. split.
    + reflexivity.
    + intro H. destruct Hret as [v Hv]. rewrite <- (Hacq H) in Hv.
      discriminate.
Qed.

(** *** [POST /cadastrar-usuario] *)

Lemma lerUsuarios_all (amb : Env) (st : State) (records : list value) :
  acquires amb ->
  readFile_error amb = None ->
  parses_to (arquivo st) (JArr records) ->
  fst (lerUsuarios amb 0 st) = Normal (JArr records).
Proof.
  intros Hlock Hread Hparse.
  rewrite (lerUsuarios_array amb 0 st records) by assumption. reflexivity.
Qed.

Lemma lerUsuarios_failed_read (amb : Env) (num : Z) (st : State) :
  acquires amb ->
  readFile_error amb <> None \/ malformed (arquivo st) ->
  fst (lerUsuarios amb num st) = Normal (JArr []).
Proof.
  intros Hlock H. rewrite lerUsuarios_acquires by exact Hlock.
  destruct (readFile_error amb) as [e|] eqn:Hread.
  - rewrite (lerUsuarios_fn_unreadable amb num _ e) by exact Hread.
    reflexivity.
  - destruct H as [H|H]; [congruence|].
    rewrite lerUsuarios_fn_malformed by assumption. reflexivity.
Qed.

Lemma salvarUsuarios_returns (amb : Env) (usuarios : value) (st : State) :
  acquires amb -> fst (salvarUsuarios amb usuarios st) = Normal tt.
Proof.
  intro Hlock. destruct (writeFile_error amb) as [[e residue]|] eqn:Hwrite.
  - rewrite (salvarUsuarios_failed amb usuarios st e residue) by assumption.
    reflexivity.
  - rewrite salvarUsuarios_written by assumption. reflexivity.
Qed.

Lemma salvarUsuarios_exhausted (amb : Env) (usuarios : value) (st : State) :
  exhausted amb -> salvarUsuarios amb usuarios st = (Throw ELOCKED, st).
Proof. intro H. apply comLock_exhausted. exact H. Qed.

Lemma lerUsuarios_exhausted (amb : Env) (num : Z) (st : State) :
  exhausted amb -> lerUsuarios amb num st = (Throw ELOCKED, st).
Proof. intro H. apply comLock_exhausted. exact H. Qed.

(** The route once the store has returned an array. *)
Lemma cadastrar_usuario_run (amb_r amb_w : Env) (uuid : jsstring)
  (body : list (jsstring * value)) (sv : Server number)
  (elems : list value) (st1 : State) :
  lerUsuarios amb_r 0 (store sv) = (Normal (JArr elems), st1) ->
  acquires amb_w ->
  cadastrar_usuario amb_r amb_w uuid body sv =
  (Normal (mkResponse 201
             (Sucesso CadastradoComSucesso (novoUsuario uuid body))),
   mkServer
     (snd (salvarUsuarios amb_w
             (JArr (elems ++ [novoUsuario uuid body])) st1))
     (printed sv ++ [(log, UsuarioCadastrado (novoUsuario uuid body))])).
Proof.
  intros Hler Hlock.
  unfold cadastrar_usuario, try_catchH, bindH, call, pure, server_print, retH.
  rewrite Hler. cbn [push store printed].
  pose proof (salvarUsuarios_returns amb_w
                (JArr (elems ++ [novoUsuario uuid body])) st1 Hlock) as Hsave.
  destruct (salvarUsuarios amb_w _ st1) as [r st2]. cbn [fst] in Hsave.
  subst r. reflexivity.
Qed.

Lemma cadastrar_usuario_written (amb_r amb_w : Env) (uuid : jsstring)
  (body : list (jsstring * value)) (sv : Server number)
  (records : list value) :
  acquires amb_r ->
  readFile_error amb_r = None ->
  parses_to (arquivo (store sv)) (JArr records) ->
  acquires amb_w ->
  writeFile_error amb_w = None ->
  fst (cadastrar_usuario amb_r amb_w uuid body sv) =
  Normal (mkResponse 201
            (Sucesso CadastradoComSucesso (novoUsuario uuid body))) /\
  arquivo (store (snd (cadastrar_usuario amb_r amb_w uuid body sv))) =
  JSON_stringify (JArr (records ++ [novoUsuario uuid body])) 2.
Proof.
  intros Hr Hread Hparse Hw Hwrite.
  pose proof (lerUsuarios_all amb_r (store sv) records Hr Hread Hparse)
    as Hler.
  destruct (lerUsuarios amb_r 0 (store sv)) as [r st1] eqn:E.
  cbn [fst] in Hler. subst r.
  rewrite (cadastrar_usuario_run amb_r amb_w uuid body sv records st1 E Hw).
  cbn [fst snd store]. split; [reflexivity|].
  rewrite salvarUsuarios_written by assumption. reflexivity.
Qed.

Lemma novoUsuario_has_id (uuid : jsstring) (body : list (jsstring * value)) :
  has_id uuid (novoUsuario uuid body).
Proof. eexists. split; reflexivity. Qed.

(** X6: a new user is added after the records the file held, which stay in
    their order; the answer is 201 with the record stored, whose [id] is
    the identifier generated. *)
Theorem cadastrar_usuario_appends (amb_r amb_w : Env) (uuid : jsstring)
  (body : list (jsstring * value)) (sv : Server number)
  (records : list value) :
  acquires amb_r ->
  readFile_error amb_r = None ->
  parses_to (arquivo (store sv)) (JArr records) ->
  acquires amb_w ->
  writeFile_error amb_w = None ->
  fst (cadastrar_usuario amb_r amb_w uuid body sv) =
  Normal (mkResponse 201
            (Sucesso CadastradoComSucesso (novoUsuario uuid body))) /\
  arquivo (store (snd (cadastrar_usuario amb_r amb_w uuid body sv))) =
  JSON_stringify (JArr (records ++ [novoUsuario uuid body])) 2 /\
  has_id uuid (novoUsuario uuid body).
Proof.
  intros Hr Hread Hparse Hw Hwrite.
  destruct (cadastrar_usuario_written amb_r amb_w uuid body sv records
              Hr Hread Hparse Hw Hwrite) as [Hanswer Hfile].
  split; [exact Hanswer|]. split; [exact Hfile|].
  apply novoUsuario_has_id.
Qed.

(** X7: when the file is there and both calls of the store take the lock,
    [fs.readFile] then fails or the text read is not JSON, and
    [fs.writeFile] succeeds, the route answers 201 and the file is replaced
    by a collection that holds the new user alone: what the file held is
    discarded.  A file that is missing is another case: the lock is not
    taken then. *)
Theorem cadastrar_usuario_discards_unreadable (amb_r amb_w : Env)
  (uuid : jsstring) (body : list (jsstring * value)) (sv : Server number) :
  acquires amb_r ->
  readFile_error amb_r <> None \/ malformed (arquivo (store sv)) ->
  acquires amb_w ->
  writeFile_error amb_w = None ->
  status_of (fst (cadastrar_usuario amb_r amb_w uuid body sv)) = Some 201 /\
  arquivo (store (snd (cadastrar_usuario amb_r amb_w uuid body sv))) =
  JSON_stringify (JArr [novoUsuario uuid body]) 2.
Proof.
  intros Hr Hbad Hw Hwrite.
  pose proof (lerUsuarios_failed_read amb_r 0 (store sv) Hr Hbad) as Hler.
  destruct (lerUsuarios amb_r 0 (store sv)) as [r st1] eqn:E.
  cbn [fst] in Hler. subst r.
  rewrite (cadastrar_usuario_run amb_r amb_w uuid body sv [] st1 E Hw).
  cbn [fst snd store status_of status app]. split; [reflexivity|].
  rewrite salvarUsuarios_written by assumption. reflexivity.
Qed.

(** X8: when writing the file fails the route answers 201 all the same,
    although the file holds what the failed write left and not the new
    user. *)
Theorem cadastrar_usuario_reports_unsaved (amb_r amb_w : Env)
  (uuid : jsstring) (body : list (jsstring * value)) (sv : Server number)
  (records : list value) (e : exn) (residue : jsstring) :
  acquires amb_r ->
  readFile_error amb_r = None ->
  parses_to (arquivo (store sv)) (JArr records) ->
  acquires amb_w ->
  writeFile_error amb_w = Some (e, residue) ->
  status_of (fst (cadastrar_usuario amb_r amb_w uuid body sv)) = Some 201 /\
  arquivo (store (snd (cadastrar_usuario amb_r amb_w uuid body sv))) = residue.
Proof.
  intros Hr Hread Hparse Hw Hwrite.
  pose proof (lerUsuarios_all amb_r (store sv) records Hr Hread Hparse)
    as Hler.
  destruct (lerUsuarios amb_r 0 (store sv)) as [r st1] eqn:E.
  cbn [fst] in Hler. subst r.
  rewrite (cadastrar_usuario_run amb_r amb_w uuid body sv records st1 E Hw).
  cbn [fst snd store status_of status]. split; [reflexivity|].
  rewrite (salvarUsuarios_failed amb_w _ st1 e residue) by assumption.
  reflexivity.
Qed.

(** X9: when the lock cannot be acquired, for the read or for the write,
    the route answers 500 and the file is as it was. *)
Theorem cadastrar_usuario_locked_out (amb_r amb_w : Env) (uuid : jsstring)
  (body : list (jsstring * value)) (sv : Server number) :
  exhausted amb_r \/ exhausted amb_w ->
  fst (cadastrar_usuario amb_r amb_w uuid body sv) =
  Normal (mkResponse 500 (Falha NaoFoiPossivelCadastrar)) /\
  arquivo (store (snd (cadastrar_usuario amb_r amb_w uuid body sv))) =
  arquivo (store sv).
Proof.
  intro Hlocked.
  unfold cadastrar_usuario, try_catchH, bindH, call, pure, server_print, retH.
  pose proof (keeps_file_lerUsuarios amb_r 0 (store sv)) as Hfile.
  destruct (acquires_or_exhausted amb_r) as [Hr|Hr].
  - destruct Hlocked as [Hx|Hw];
      [unfold acquires, exhausted in *; congruence|].
    destruct (lerUsuarios amb_r 0 (store sv)) as [[usuarios|e] st1];
      cbn [snd] in Hfile; [|split; [reflexivity | exact Hfile]].
    destruct usuarios as [| | | |elems|]; cbn [push store printed];
      try (split; [reflexivity | exact Hfile]).
    rewrite salvarUsuarios_exhausted by exact Hw.
    split; [reflexivity | exact Hfile].
  - rewrite lerUsuarios_exhausted by exact Hr.
    split; reflexivity.
Qed.

(** *** Looking a record up by its [id] *)

Lemma jsstring_eqb_eq (a b : jsstring) : jsstring_eqb a b = true <-> a = b.
Proof.
  revert b. induction a as [|x a IH]; intros [|y b]; simpl;
    try (split; [discriminate | congruence]); [tauto|].
  rewrite andb_true_iff, N.eqb_eq, IH.
  split; [intros [-> ->]; reflexivity | intro H; inversion H; auto].
Qed.

Lemma jsstring_eqb_refl (a : jsstring) : jsstring_eqb a a = true.
Proof. apply jsstring_eqb_eq. reflexivity. Qed.

Lemma id_is_matches (id : jsstring) (u : value) :
  u <> JNull -> id_is id u = Normal (id_matches id u).
Proof.
  intro Hu. destruct u as [|b|x|s|elems|members]; try reflexivity;
    [congruence|].
  unfold id_is, id_matches, get_id.
  destruct (get_member (js "id") members) as [[|b|x|s|elems|ms]|];
    reflexivity.
Qed.

Lemma has_id_matches (id : jsstring) (u : value) :
  has_id id u <-> id_matches id u = true.
Proof.
  split.
  - intros [members [-> Hid]]. unfold id_matches. rewrite Hid.
    apply jsstring_eqb_refl.
  - destruct u as [|b|x|s|elems|members]; try discriminate.
    unfold id_matches.
    destruct (get_member (js "id") members) as [[|b|x|s|elems|ms]|] eqn:Hid;
      try discriminate.
    intro H. apply jsstring_eqb_eq in H. subst s.
    exists members. split; [reflexivity | exact Hid].
Qed.

Lemma has_id_is (id : jsstring) (u : value) :
  has_id id u -> id_is id u = Normal true.
Proof.
  intro H. pose proof (proj1 (has_id_matches id u) H) as Hm.
  destruct H as [members [-> _]]. rewrite id_is_matches by discriminate.
  rewrite Hm. reflexivity.
Qed.

Lemma other_id_matches (id : jsstring) (u : value) :
  other_id id u <-> u <> JNull /\ id_matches id u = false.
Proof.
  unfold other_id. split.
  - intro H. assert (Hu : u <> JNull) by (intros ->; discriminate H).
    split; [exact Hu|]. rewrite id_is_matches in H by exact Hu. congruence.
  - intros [Hu Hm]. rewrite id_is_matches by exact Hu. rewrite Hm.
    reflexivity.
Qed.

Lemma id_is_throws (id : jsstring) (u : value) (e : exn) :
  id_is id u = Throw e -> u = JNull /\ e = TypeError.
Proof.
  destruct u as [|b|x|s|elems|members]; unfold id_is, get_id;
    try discriminate.
  - intro H. injection H as <-. split; reflexivity.
  - destruct (get_member (js "id") members) as [[|b|x|s|elems|ms]|];
      discriminate.
Qed.

Lemma first_with_id_none (id : jsstring) (elems : list value) :
  Forall (other_id id) elems ->
  forall from, first_with_id id elems from = Normal None.
Proof.
  intro H. induction H as [|u l Hu _ IH]; intro from; [reflexivity|].
  cbn [first_with_id]. unfold other_id in Hu. rewrite Hu. apply IH.
Qed.

Lemma first_with_id_found (id : jsstring) (before : list value) (u : value)
  (after : list value) :
  Forall (other_id id) before ->
  has_id id u ->
  forall from,
    first_with_id id (before ++ u :: after) from =
    Normal (Some (from + length before)%nat).
Proof.
  intros H Hu. induction H as [|x l Hx _ IH]; intro from.
  - cbn [app first_with_id length]. rewrite (has_id_is id u Hu).
    rewrite Nat.add_0_r. reflexivity.
  - cbn [app first_with_id length]. unfold other_id in Hx. rewrite Hx.
    rewrite IH. rewrite Nat.add_succ_r. reflexivity.
Qed.

Lemma first_with_id_null (id : jsstring) (elems : list value) :
  In JNull elems ->
  forall from,
    first_with_id id elems from = Throw TypeError \/
    exists i, first_with_id id elems from = Normal (Some i).
Proof.
  induction elems as [|u l IH]; intros Hin from; [contradiction|].
  cbn [first_with_id].
  destruct Hin as [->|Hin]; [left; reflexivity|].
  destruct (id_is id u) as [[|]|e] eqn:Hu.
  - right. eexists. reflexivity.
  - apply IH. exact Hin.
  - left. apply id_is_throws in Hu as [_ ->]. reflexivity.
Qed.

Lemma without_id_filter (id : jsstring) (elems : list value) :
  Forall (fun u => u <> JNull) elems ->
  without_id id elems =
  Normal (filter (fun u => negb (id_matches id u)) elems).
Proof.
  intro H. induction H as [|u l Hu _ IH]; [reflexivity|].
  cbn [without_id filter]. rewrite id_is_matches by exact Hu. rewrite IH.
  destruct (id_matches id u); reflexivity.
Qed.

Lemma without_id_null (id : jsstring) (elems : list value) :
  In JNull elems -> without_id id elems = Throw TypeError.
Proof.
  induction elems as [|u l IH]; intro Hin; [contradiction|].
  cbn [without_id]. destruct Hin as [->|Hin]; [reflexivity|].
  rewrite (IH Hin).
  destruct (id_is id u) as [same|e] eqn:Hu; [reflexivity|].
  apply id_is_throws in Hu as [_ ->]. reflexivity.
Qed.

Lemma filter_other_id (id : jsstring) (elems : list value) :
  Forall (other_id id) elems ->
  filter (fun u => negb (id_matches id u)) elems = elems.
Proof.
  intro H. induction H as [|u l Hu _ IH]; [reflexivity|].
  cbn [filter]. apply other_id_matches in Hu as [_ ->]. cbn [negb].
  rewrite IH. reflexivity.
Qed.

Lemma other_id_not_null (id : jsstring) (elems : list value) :
  Forall (other_id id) elems -> Forall (fun u => u <> JNull) elems.
Proof.
  apply Forall_impl. intros u H. apply other_id_matches in H. tauto.
Qed.

Lemma update_at_middle (f : value -> value) (before : list value)
  (u : value) (after : list value) :
  update_at (length before) f (before ++ u :: after) = before ++ f u :: after.
Proof.
  induction before as [|x l IH]; [reflexivity|].
  cbn [length app update_at]. rewrite IH. reflexivity.
Qed.

Lemma nth_error_middle (before : list value) (u : value)
  (after : list value) :
  nth_error (before ++ u :: after) (length before) = Some u.
Proof.
  induction before as [|x l IH]; [reflexivity|]. exact IH.
Qed.

(** An index [findIndex] returns is the index of an element: the routes
    never read past the end of [usuarios]. *)
Lemma first_with_id_in_range (id : jsstring) (elems : list value) :
  forall from i,
    first_with_id id elems from = Normal (Some i) ->
    (from <= i)%nat /\ exists u, nth_error elems (i - from) = Some u.
Proof.
  induction elems as [|x l IH]; intros from i H; [discriminate|].
  cbn [first_with_id] in H. destruct (id_is id x) as [[|]|e]; try discriminate.
  - injection H as <-. split; [lia|]. rewrite Nat.sub_diag. exists x.
    reflexivity.
  - apply IH in H as [Hle [u Hu]]. split; [lia|]. exists u.
    replace (i - from)%nat with (S (i - S from)) by lia. exact Hu.
Qed.

Lemma findIndex_in_range (usuarios : value) (id : jsstring) (i : nat) :
  findIndex usuarios id = Normal (Some i) ->
  exists u, at_index usuarios i = Some u.
Proof.
  destruct usuarios as [| | | |elems|]; try discriminate. cbn [findIndex].
  intro H. apply first_with_id_in_range in H as [_ [u Hu]].
  rewrite Nat.sub_0_r in Hu. exists u. exact Hu.
Qed.

(** *** [DELETE /remover-usuario/:id] *)

Lemma filter_middle (id : jsstring) (before : list value) (u : value)
  (after : list value) :
  Forall (other_id id) before ->
  has_id id u ->
  filter (fun x => negb (id_matches id x)) (before ++ u :: after) =
  before ++ filter (fun x => negb (id_matches id x)) after.
Proof.
  intros Hbefore Hu. rewrite filter_app, filter_other_id by exact Hbefore.
  cbn [filter]. apply has_id_matches in Hu. rewrite Hu. reflexivity.
Qed.

Lemma has_id_not_null (id : jsstring) (u : value) : has_id id u -> u <> JNull.
Proof. intros [members [-> _]]. discriminate. Qed.

(** The route once the store has returned an array. *)
Lemma remover_usuario_run (amb_r amb_w : Env) (id : jsstring)
  (sv : Server number) (before : list value) (u : value)
  (after : list value) (st1 : State) :
  lerUsuarios amb_r 0 (store sv) = (Normal (JArr (before ++ u :: after)), st1) ->
  Forall (other_id id) before ->
  has_id id u ->
  Forall (fun x => x <> JNull) after ->
  acquires amb_w ->
  remover_usuario amb_r amb_w id sv =
  (Normal (mkResponse 200 (Sucesso RemovidoComSucesso u)),
   mkServer
     (snd (salvarUsuarios amb_w
             (JArr (before ++ filter (fun x => negb (id_matches id x)) after))
             st1))
     (printed sv ++ [(log, UsuarioRemovido u)])).
Proof.
  intros Hler Hbefore Hu Hafter Hlock.
  unfold remover_usuario, try_catchH, bindH, call, pure, server_print, retH.
  rewrite Hler. cbn [findIndex store printed].
  rewrite (first_with_id_found id before u after Hbefore Hu).
  cbn [Nat.add at_index]. rewrite nth_error_middle.
  unfold filter_out. rewrite without_id_filter.
  - rewrite filter_middle by assumption. cbv beta iota.
    cbn [store printed].
    pose proof (salvarUsuarios_returns amb_w
                  (JArr (before
                           ++ filter (fun x => negb (id_matches id x)) after))
                  st1 Hlock) as Hsave.
    destruct (salvarUsuarios amb_w _ st1) as [r st2]. cbn [fst] in Hsave.
    subst r. reflexivity.
  - apply Forall_app. split; [exact (other_id_not_null id before Hbefore)|].
    constructor; [exact (has_id_not_null id u Hu) | exact Hafter].
Qed.

Lemma remover_usuario_written (amb_r amb_w : Env) (id : jsstring)
  (sv : Server number) (before : list value) (u : value)
  (after : list value) :
  acquires amb_r ->
  readFile_error amb_r = None ->
  parses_to (arquivo (store sv)) (JArr (before ++ u :: after)) ->
  Forall (other_id id) before ->
  has_id id u ->
  Forall (fun x => x <> JNull) after ->
  acquires amb_w ->
  writeFile_error amb_w = None ->
  fst (remover_usuario amb_r amb_w id sv) =
  Normal (mkResponse 200 (Sucesso RemovidoComSucesso u)) /\
  arquivo (store (snd (remover_usuario amb_r amb_w id sv))) =
  JSON_stringify
    (JArr (before ++ filter (fun x => negb (id_matches id x)) after)) 2.
Proof.
  intros Hr Hread Hparse Hbefore Hu Hafter Hw Hwrite.
  pose proof (lerUsuarios_all amb_r (store sv) _ Hr Hread Hparse) as Hler.
  destruct (lerUsuarios amb_r 0 (store sv)) as [r st1] eqn:E.
  cbn [fst] in Hler. subst r.
  rewrite (remover_usuario_run amb_r amb_w id sv before u after st1 E)
    by assumption.
  cbn [fst snd store]. split; [reflexivity|].
  rewrite salvarUsuarios_written by assumption. reflexivity.
Qed.


Lemma remover_usuario_absent (amb_r amb_w : Env) (id : jsstring)
  (sv : Server number) (records : list value) :
  acquires amb_r ->
  readFile_error amb_r = None ->
  parses_to (arquivo (store sv)) (JArr records) ->
  Forall (other_id id) records ->
  fst (remover_usuario amb_r amb_w id sv) =
  Normal (mkResponse 404 (Falha UsuarioNaoEncontrado)) /\
  arquivo (store (snd (remover_usuario amb_r amb_w id sv))) =
  arquivo (store sv).
Proof.
  intros Hr Hread Hparse Hnone.
  pose proof (lerUsuarios_all amb_r (store sv) _ Hr Hread Hparse) as Hler.
  pose proof (keeps_file_lerUsuarios amb_r 0 (store sv)) as Hfile.
  unfold remover_usuario, try_catchH, bindH, call, pure, server_print, retH.
  destruct (lerUsuarios amb_r 0 (store sv)) as [r st1].
  cbn [fst snd] in *. subst r. cbn [findIndex store].
  rewrite first_with_id_none by exact Hnone.
  split; [reflexivity | exact Hfile].
Qed.

(** X11: removing an [id] that no record has answers 404 and leaves the
    file as it was. *)
Theorem remover_usuario_not_found (amb_r amb_w : Env) (id : jsstring)
  (sv : Server number) (records : list value) :
  acquires amb_r ->
  readFile_error amb_r = None ->
  parses_to (arquivo (store sv)) (JArr records) ->
  Forall (other_id id) records ->
  fst (remover_usuario amb_r amb_w id sv) =
  Normal (mkResponse 404 (Falha UsuarioNaoEncontrado)) /\
  arquivo (store (snd (remover_usuario amb_r amb_w id sv))) =
  arquivo (store sv).
Proof.
  intros Hr Hread Hparse Hnone.
  pose proof (lerUsuarios_all amb_r (store sv) _ Hr Hread Hparse) as Hler.
  pose proof (keeps_file_lerUsuarios amb_r 0 (store sv)) as Hfile.
  unfold remover_usuario, try_catchH, bindH, call, pure, server_print, retH.
  destruct (lerUsuarios amb_r 0 (store sv)) as [r st1].
  cbn [fst snd] in *. subst r. cbn [findIndex store].
  rewrite first_with_id_none by exact Hnone.
  split; [reflexivity | exact Hfile].
Qed.

(** X12: when the collection holds a [null] among its records, removing
    answers 500 for every [id] and the file is as it was. *)
Theorem remover_usuario_null_record (amb_r amb_w : Env) (id : jsstring)
  (sv : Server number) (records : list value) :
  acquires amb_r ->
  readFile_error amb_r = None ->
  parses_to (arquivo (store sv)) (JArr records) ->
  In JNull records ->
  fst (remover_usuario amb_r amb_w id sv) =
  Normal (mkResponse 500 (Falha NaoFoiPossivelRemover)) /\
  arquivo (store (snd (remover_usuario amb_r amb_w id sv))) =
  arquivo (store sv).
Proof.
  intros Hr Hread Hparse Hnull.
  pose proof (lerUsuarios_all amb_r (store sv) _ Hr Hread Hparse) as Hler.
  pose proof (keeps_file_lerUsuarios amb_r 0 (store sv)) as Hfile.
  unfold remover_usuario, try_catchH, bindH, call, pure, server_print, retH.
  destruct (lerUsuarios amb_r 0 (store sv)) as [r st1].
  cbn [fst snd] in *. subst r. cbn [findIndex store].
  destruct (first_with_id_null id records Hnull 0%nat) as [->|[i ->]].
  - split; [reflexivity | exact Hfile].
  - cbn [at_index]. destruct (nth_error records i);
      [|split; [reflexivity | exact Hfile]].
    unfold filter_out. rewrite (without_id_null id records Hnull).
    split; [reflexivity | exact Hfile].
Qed.

(** *** [PUT /atualizar-usuario/:id] *)

Lemma get_member_cons (key k : jsstring) (x : value)
  (members : list (jsstring * value)) :
  get_member key ((k, x) :: members) =
  if jsstring_eqb k key then Some x else get_member key members.
Proof.
  unfold get_member. cbn [find fst]. destruct (jsstring_eqb k key);
    reflexivity.
Qed.

Lemma get_member_set (key k : jsstring) (v : value)
  (members : list (jsstring * value)) :
  get_member k (set_member key v members) =
  if jsstring_eqb key k then Some v else get_member k members.
Proof.
  induction members as [|[k0 x] l IH].
  - cbn [set_member]. rewrite get_member_cons. reflexivity.
  - cbn [set_member]. destruct (jsstring_eqb k0 key) eqn:Hk0.
    + apply jsstring_eqb_eq in Hk0. subst k0. rewrite !get_member_cons.
      destruct (jsstring_eqb key k); reflexivity.
    + rewrite !get_member_cons, IH.
      destruct (jsstring_eqb k0 k) eqn:Hk; [|reflexivity].
      apply jsstring_eqb_eq in Hk. subst k0.
      destruct (jsstring_eqb key k) eqn:Hkey; [|reflexivity].
      apply jsstring_eqb_eq in Hkey. subst key.
      rewrite jsstring_eqb_refl in Hk0. discriminate.
Qed.

(** What one of the assignments does to the members of a record. *)
Lemma assign_if_given_members (body : list (jsstring * value)) (key : string)
  (members : list (jsstring * value)) :
  exists members',
    assign_if_given body key (JObj members) = JObj members' /\
    forall k,
      get_member k members' =
      if jsstring_eqb (js key) k then
        match get_member (js key) body with
        | Some v => if truthy v then Some v else get_member k members
        | None => get_member k members
        end
      else get_member k members.
Proof.
  unfold assign_if_given.
  destruct (get_member (js key) body) as [v|];
    [destruct (truthy v)|].
  - eexists. split; [reflexivity|]. intro k. apply get_member_set.
  - exists members. split; [reflexivity|]. intro k.
    destruct (jsstring_eqb (js key) k); reflexivity.
  - exists members. split; [reflexivity|]. intro k.
    destruct (jsstring_eqb (js key) k); reflexivity.
Qed.

Lemma atualizar_campos_spec (body members : list (jsstring * value)) :
  exists members',
    atualizar_campos body (JObj members) = JObj members' /\
    (forall k, updatable k ->
       get_member k members' =
       match get_member k body with
       | Some v => if truthy v then Some v else get_member k members
       | None => get_member k members
       end) /\
    (forall k, ~ updatable k -> get_member k members' = get_member k members).
Proof.
  unfold atualizar_campos.
  destruct (assign_if_given_members body "nome" members) as [m1 [-> H1]].
  destruct (assign_if_given_members body "idade" m1) as [m2 [-> H2]].
  destruct (assign_if_given_members body "endereco" m2) as [m3 [-> H3]].
  destruct (assign_if_given_members body "email" m3) as [m4 [-> H4]].
  exists m4. split; [reflexivity|]. split.
  - intros k [-> | [-> | [-> | ->]]]; rewrite H4, H3, H2, H1;
      cbn [jsstring_eqb js list_ascii_of_string map N_of_ascii N.eqb
           Pos.eqb andb N_of_digits N.add N.mul];
      repeat match goal with
        | |- context [match ?o with Some _ => _ | None => _ end] =>
            destruct o
        | |- context [if truthy ?v then _ else _] => destruct (truthy v)
        end; reflexivity.
  - intros k Hk. rewrite H4, H3, H2, H1.
    assert (Hne : forall key, updatable (js key) ->
                    jsstring_eqb (js key) k = false).
    { intros key Hkey. destruct (jsstring_eqb (js key) k) eqn:E;
        [|reflexivity].
      apply jsstring_eqb_eq in E. subst k. contradiction. }
    rewrite !Hne; [reflexivity | | | |]; unfold updatable; auto.
Qed.

Lemma atualizar_campos_has_id (body : list (jsstring * value))
  (id : jsstring) (u : value) :
  has_id id u -> has_id id (atualizar_campos body u).
Proof.
  intros [members [-> Hid]].
  destruct (atualizar_campos_spec body members) as [m' [-> [_ Hother]]].
  exists m'. split; [reflexivity|]. rewrite Hother; [exact Hid|].
  intros [H|[H|[H|H]]]; discriminate H.
Qed.

(** X13: the update sets, of a record, the members [nome], [idade],
    [endereco] and [email] that the body gives with a truthy value, and
    nothing else: a member the body does not give, or gives as [0], [""],
    [false] or [null], keeps its value, and so does every other member,
    the [id] among them. *)
Theorem atualizar_campos_members (body members : list (jsstring * value)) :
  exists members',
    atualizar_campos body (JObj members) = JObj members' /\
    (forall k, updatable k ->
       get_member k members' =
       match get_member k body with
       | Some v => if truthy v then Some v else get_member k members
       | None => get_member k members
       end) /\
    (forall k, ~ updatable k -> get_member k members' = get_member k members).
Proof.
  unfold atualizar_campos.
  destruct (assign_if_given_members body "nome" members) as [m1 [-> H1]].
  destruct (assign_if_given_members body "idade" m1) as [m2 [-> H2]].
  destruct (assign_if_given_members body "endereco" m2) as [m3 [-> H3]].
  destruct (assign_if_given_members body "email" m3) as [m4 [-> H4]].
  exists m4. split; [reflexivity|]. split.
  - intros k [-> | [-> | [-> | ->]]]; rewrite H4, H3, H2, H1;
      cbn [jsstring_eqb js list_ascii_of_string map N_of_ascii N.eqb
           Pos.eqb andb N_of_digits N.add N.mul];
      repeat match goal with
        | |- context [match ?o with Some _ => _ | None => _ end] =>
            destruct o
        | |- context [if truthy ?v then _ else _] => destruct (truthy v)
        end; reflexivity.
  - intros k Hk. rewrite H4, H3, H2, H1.
    assert (Hne : forall key, updatable (js key) ->
                    jsstring_eqb (js key) k = false).
    { intros key Hkey. destruct (jsstring_eqb (js key) k) eqn:E;
        [|reflexivity].
      apply jsstring_eqb_eq in E. subst k. contradiction. }
    rewrite !Hne; [reflexivity | | | |]; unfold updatable; auto.
Qed.

(** The route once the store has returned an array. *)
Lemma atualizar_usuario_run (amb_r amb_w : Env) (id : jsstring)
  (body : list (jsstring * value)) (sv : Server number)
  (before : list value) (u : value) (after : list value) (st1 : State) :
  lerUsuarios amb_r 0 (store sv) = (Normal (JArr (before ++ u :: after)), st1) ->
  Forall (other_id id) before ->
  has_id id u ->
  acquires amb_w ->
  atualizar_usuario amb_r amb_w id body sv =
  (Normal (mkResponse 200
             (Sucesso AtualizadoComExito (atualizar_campos body u))),
   mkServer
     (snd (salvarUsuarios amb_w
             (JArr (before ++ atualizar_campos body u :: after)) st1))
     (printed sv
        ++ [(log, AtualizandoUsuario id)]
        ++ [(log, ElementoIdentificado (Z.of_nat (length before)))]
        ++ [(log, UsuarioAtualizado (atualizar_campos body u))])).
Proof.
  intros Hler Hbefore Hu Hlock.
  unfold atualizar_usuario, try_catchH, bindH, call, pure, server_print, retH.
  rewrite Hler. cbn [findIndex store printed].
  rewrite (first_with_id_found id before u after Hbefore Hu).
  cbn [Nat.add at_index]. rewrite nth_error_middle, update_at_middle.
  cbv beta iota. cbn [store printed].
  pose proof (salvarUsuarios_returns amb_w
                (JArr (before ++ atualizar_campos body u :: after))
                st1 Hlock) as Hsave.
  destruct (salvarUsuarios amb_w _ st1) as [r st2]. cbn [fst] in Hsave.
  subst r. cbn [snd store printed]. rewrite <- !app_assoc. reflexivity.
Qed.

(** X14: updating by [id] changes the first record that has the [id] and
    no other: the collection written has the same records in the same
    places, that one with its members updated; the record keeps its [id],
    and the answer is 200 with the updated record. *)
Theorem atualizar_usuario_updates (amb_r amb_w : Env) (id : jsstring)
  (body : list (jsstring * value)) (sv : Server number)
  (before : list value) (u : value) (after : list value) :
  acquires amb_r ->
  readFile_error amb_r = None ->
  parses_to (arquivo (store sv)) (JArr (before ++ u :: after)) ->
  Forall (other_id id) before ->
  has_id id u ->
  acquires amb_w ->
  writeFile_error amb_w = None ->
  fst (atualizar_usuario amb_r amb_w id body sv) =
  Normal (mkResponse 200
            (Sucesso AtualizadoComExito (atualizar_campos body u))) /\
  arquivo (store (snd (atualizar_usuario amb_r amb_w id body sv))) =
  JSON_stringify (JArr (before ++ atualizar_campos body u :: after)) 2 /\
  has_id id (atualizar_campos body u).
Proof.
  intros Hr Hread Hparse Hbefore Hu Hw Hwrite.
  pose proof (lerUsuarios_all amb_r (store sv) _ Hr Hread Hparse) as Hler.
  destruct (lerUsuarios amb_r 0 (store sv)) as [r st1] eqn:E.
  cbn [fst] in Hler. subst r.
  rewrite (atualizar_usuario_run amb_r amb_w id body sv before u after st1 E)
    by assumption.
  cbn [fst snd store]. split; [reflexivity|]. split.
  - rewrite salvarUsuarios_written by assumption. reflexivity.
  - apply atualizar_campos_has_id. exact Hu.
Qed.

(** X15: updating an [id] that no record has answers 404 and leaves the
    file as it was. *)
Theorem atualizar_usuario_not_found (amb_r amb_w : Env) (id : jsstring)
  (body : list (jsstring * value)) (sv : Server number)
  (records : list value) :
  acquires amb_r ->
  readFile_error amb_r = None ->
  parses_to (arquivo (store sv)) (JArr records) ->
  Forall (other_id id) records ->
  fst (atualizar_usuario amb_r amb_w id body sv) =
  Normal (mkResponse 404 (Falha UsuarioNaoEncontrado)) /\
  arquivo (store (snd (atualizar_usuario amb_r amb_w id body sv))) =
  arquivo (store sv).
Proof.
  intros Hr Hread Hparse Hnone.
  pose proof (lerUsuarios_all amb_r (store sv) _ Hr Hread Hparse) as Hler.
  pose proof (keeps_file_lerUsuarios amb_r 0 (store sv)) as Hfile.
  unfold atualizar_usuario, try_catchH, bindH, call, pure, server_print, retH.
  destruct (lerUsuarios amb_r 0 (store sv)) as [r st1].
  cbn [fst snd] in *. subst r. cbn [findIndex store].
  rewrite first_with_id_none by exact Hnone.
  split; [reflexivity | exact Hfile].
Qed.

Lemma assign_if_given_falsy (body : list (jsstring * value)) (key : string)
  (u : value) :
  (forall v, get_member (js key) body = Some v -> truthy v = false) ->
  assign_if_given body key u = u.
Proof.
  intro H. unfold assign_if_given.
  destruct (get_member (js key) body) as [v|]; [|reflexivity].
  rewrite (H v eq_refl). reflexivity.
Qed.

(** X16: an update whose body gives none of the four members with a truthy
    value (they are absent, [0], [""], [false] or [null]) answers 200 and
    writes the collection as it was read: no member can be set to such a
    value. *)
Theorem atualizar_usuario_ignores_falsy (amb_r amb_w : Env) (id : jsstring)
  (body : list (jsstring * value)) (sv : Server number)
  (before : list value) (u : value) (after : list value) :
  acquires amb_r ->
  readFile_error amb_r = None ->
  parses_to (arquivo (store sv)) (JArr (before ++ u :: after)) ->
  Forall (other_id id) before ->
  has_id id u ->
  acquires amb_w ->
  writeFile_error amb_w = None ->
  (forall k v, updatable k -> get_member k body = Some v -> truthy v = false) ->
  fst (atualizar_usuario amb_r amb_w id body sv) =
  Normal (mkResponse 200 (Sucesso AtualizadoComExito u)) /\
  arquivo (store (snd (atualizar_usuario amb_r amb_w id body sv))) =
  JSON_stringify (JArr (before ++ u :: after)) 2.
Proof.
  intros Hr Hread Hparse Hbefore Hu Hw Hwrite Hfalsy.
  assert (Hsame : atualizar_campos body u = u).
  { unfold atualizar_campos.
    rewrite (assign_if_given_falsy body "nome");
      [|intro v; apply Hfalsy; unfold updatable; auto].
    rewrite (assign_if_given_falsy body "idade");
      [|intro v; apply Hfalsy; unfold updatable; auto].
    rewrite (assign_if_given_falsy body "endereco");
      [|intro v; apply Hfalsy; unfold updatable; auto].
    apply assign_if_given_falsy. intro v. apply Hfalsy.
    unfold updatable. auto. }
  pose proof (lerUsuarios_all amb_r (store sv) _ Hr Hread Hparse) as Hler.
  destruct (lerUsuarios amb_r 0 (store sv)) as [r st1] eqn:E.
  cbn [fst] in Hler. subst r.
  rewrite (atualizar_usuario_run amb_r amb_w id body sv before u after st1 E)
    by assumption.
  rewrite Hsame. cbn [fst snd store]. split; [reflexivity|].
  rewrite salvarUsuarios_written by assumption. reflexivity.
Qed.

(** *** The routes one after the other *)

(** X17: removing the same [id] a second time answers 404 and leaves the
    file as the first removal wrote it, when the runtime reads back what
    it wrote. *)
Theorem remover_usuario_twice (amb_r amb_w amb_r' amb_w' : Env)
  (id : jsstring) (sv : Server number) (before : list value) (u : value)
  (after : list value) :
  acquires amb_r ->
  readFile_error amb_r = None ->
  parses_to (arquivo (store sv)) (JArr (before ++ u :: after)) ->
  Forall (other_id id) before ->
  has_id id u ->
  Forall (fun x => x <> JNull) after ->
  acquires amb_w ->
  writeFile_error amb_w = None ->
  acquires amb_r' ->
  readFile_error amb_r' = None ->
  let kept := before ++ filter (fun x => negb (id_matches id x)) after in
  parses_to (JSON_stringify (JArr kept) 2) (JArr kept) ->
  let sv' := snd (remover_usuario amb_r amb_w id sv) in
  fst (remover_usuario amb_r' amb_w' id sv') =
  Normal (mkResponse 404 (Falha UsuarioNaoEncontrado)) /\
  arquivo (store (snd (remover_usuario amb_r' amb_w' id sv'))) =
  JSON_stringify (JArr kept) 2.
Proof.
  intros Hr Hread Hparse Hbefore Hu Hafter Hw Hwrite Hr' Hread' kept Hcodec sv'.
  destruct (remover_usuario_written amb_r amb_w id sv before u after
              Hr Hread Hparse Hbefore Hu Hafter Hw Hwrite)
    as [_ Hfile].
  fold kept in Hfile. fold sv' in Hfile.
  assert (Hother : Forall (other_id id) kept).
  { subst kept. apply Forall_app. split; [exact Hbefore|].
    apply Forall_forall. intros x Hx. apply filter_In in Hx as [Hin Hx].
    apply other_id_matches. split.
    - exact (proj1 (Forall_forall _ _) Hafter x Hin).
    - apply negb_true_iff. exact Hx. }
  destruct (remover_usuario_absent amb_r' amb_w' id sv' kept Hr' Hread')
    as [Hanswer Hsame]; [rewrite Hfile; exact Hcodec | exact Hother |].
  split; [exact Hanswer|]. rewrite Hsame. exact Hfile.
Qed.

(** X18: creating a user and then removing it by the identifier it got
    writes back the collection that was there before, provided no record
    had that identifier and the runtime reads back what it wrote. *)
Theorem cadastrar_then_remover (amb_r amb_w amb_r' amb_w' : Env)
  (uuid : jsstring) (body : list (jsstring * value)) (sv : Server number)
  (records : list value) :
  acquires amb_r ->
  readFile_error amb_r = None ->
  parses_to (arquivo (store sv)) (JArr records) ->
  Forall (other_id uuid) records ->
  acquires amb_w ->
  writeFile_error amb_w = None ->
  acquires amb_r' ->
  readFile_error amb_r' = None ->
  acquires amb_w' ->
  writeFile_error amb_w' = None ->
  parses_to (JSON_stringify (JArr (records ++ [novoUsuario uuid body])) 2)
    (JArr (records ++ [novoUsuario uuid body])) ->
  let sv' := snd (cadastrar_usuario amb_r amb_w uuid body sv) in
  fst (remover_usuario amb_r' amb_w' uuid sv') =
  Normal (mkResponse 200
            (Sucesso RemovidoComSucesso (novoUsuario uuid body))) /\
  arquivo (store (snd (remover_usuario amb_r' amb_w' uuid sv'))) =
  JSON_stringify (JArr records) 2.
Proof.
  intros Hr Hread Hparse Hfresh Hw Hwrite Hr' Hread' Hw' Hwrite' Hcodec sv'.
  destruct (cadastrar_usuario_written amb_r amb_w uuid body sv records
              Hr Hread Hparse Hw Hwrite) as [_ Hfile].
  fold sv' in Hfile.
  destruct (remover_usuario_written amb_r' amb_w' uuid sv' records
              (novoUsuario uuid body) [] Hr' Hread')
    as [Hanswer Hfile']; try assumption.
  - rewrite Hfile. exact Hcodec.
  - apply novoUsuario_has_id.
  - constructor.
  - cbn [filter] in Hfile'. rewrite app_nil_r in Hfile'.
    split; [exact Hanswer | exact Hfile'].
Qed.

End RouteProperties.

(* ================================================================== *)
(** ** The properties of the routes on concrete requests *)

Import RouteExamples.

Lemma with_null_parses : parses_to (js "[null]") (JArr [JNull : value Z]).
Proof. split; [vm_compute; discriminate | vm_compute; reflexivity]. Defined.

Lemma broken_malformed : malformed (js "[1, 2").
Proof. split; [vm_compute; discriminate | vm_compute; reflexivity]. Defined.

(** The disk fills up and leaves the file empty: the write returns and the
    next read gives no record. *)
Lemma failed_write_empties_collection_witness :
  fst (salvarUsuarios disk_full (JArr abc) (file abc_text)) = Normal tt /\
  fst (lerUsuarios calm 0
         (snd (salvarUsuarios disk_full (JArr abc) (file abc_text)))) =
  Normal (JArr []).
Proof.
  exact (failed_write_empties_collection disk_full calm (JArr abc)
           (file abc_text) (SystemError "ENOSPC") [] 0
           eq_refl eq_refl eq_refl eq_refl (or_introl (Forall_nil _))).
Defined.

(** [GET /list-users], [/list-users/0], [/list-users/-5],
    [/list-users/5000] and [/list-users/2] on three records. *)
Lemma list_users_selection_witness :
  let all := Normal (mkResponse 200 (Usuarios (JArr abc))) in
  fst (list_users contended None three) = all /\
  fst (list_users contended (Some (js "0")) three) = all /\
  fst (list_users contended (Some (js "-5")) three) = all /\
  fst (list_users contended (Some (js "5000")) three) = all /\
  fst (list_users contended (Some (js "2")) three) =
  Normal (mkResponse 200 (Usuarios (JArr [record "a"; record "b"]))).
Proof.
  pose proof (fun count =>
    list_users_selection contended count three abc
      eq_refl eq_refl abc_text_parses) as H.
  cbv zeta in H. cbv zeta. split; [|split; [|split; [|split]]].
  - exact (proj1 (H None) eq_refl).
  - exact (proj1 (proj2 (H (Some (js "0")))) eq_refl).
  - exact (proj1 (proj2 (proj2 (H (Some (js "-5"))))) (-5) eq_refl eq_refl).
  - exact (proj1 (proj2 (proj2 (proj2 (H (Some (js "5000"))))))
             5000 eq_refl eq_refl).
  - apply (proj2 (proj2 (proj2 (proj2 (H (Some (js "2")))))) 2 eq_refl).
    split; [reflexivity | discriminate].
Defined.

Lemma list_users_bounded_witness :
  exists k : Z,
    1 <= k <= 10000 /\
    fst (list_users contended (Some (js "2")) three) =
    Normal (mkResponse 200 (Usuarios (JArr (firstn (Z.to_nat k) abc)))) /\
    Z.of_nat (length (firstn (Z.to_nat k) abc)) =
    Z.min k (Z.of_nat (length abc)).
Proof.
  exact (list_users_bounded contended (Some (js "2")) three abc
           eq_refl eq_refl abc_text_parses).
Defined.

(** The lock is held at every attempt: the route answers 500. *)
Lemma list_users_answers_witness :
  fst (list_users busy None three) =
  Normal (mkResponse 500 (Falha NaoFoiPossivelLer)).
Proof.
  destruct (list_users_answers busy None three)
    as [_ [answer [Hanswer [Hbusy _]]]].
  rewrite Hanswer. rewrite (Hbusy eq_refl). reflexivity.
Defined.

(** Ana is added after the three records. *)
Lemma cadastrar_usuario_appends_witness :
  fst (cadastrar_usuario calm contended (js "u1") ana three) =
  Normal (mkResponse 201
            (Sucesso CadastradoComSucesso (novoUsuario (js "u1") ana))) /\
  arquivo (store (snd (cadastrar_usuario calm contended (js "u1") ana three)))
  = JSON_stringify (JArr (abc ++ [novoUsuario (js "u1") ana])) 2 /\
  has_id (js "u1") (novoUsuario (js "u1") ana).
Proof.
  exact (cadastrar_usuario_appends calm contended (js "u1") ana three abc
           eq_refl eq_refl abc_text_parses eq_refl eq_refl).
Defined.

(** The file held a broken array: it holds Ana alone. *)
Lemma cadastrar_usuario_discards_unreadable_witness :
  status_of (fst (cadastrar_usuario calm calm (js "u1") ana broken)) =
  Some 201 /\
  arquivo (store (snd (cadastrar_usuario calm calm (js "u1") ana broken))) =
  JSON_stringify (JArr [novoUsuario (js "u1") ana]) 2.
Proof.
  exact (cadastrar_usuario_discards_unreadable calm calm (js "u1") ana broken
           eq_refl (or_intror broken_malformed) eq_refl eq_refl).
Defined.

(** The disk is full: 201 all the same, and an empty file. *)
Lemma cadastrar_usuario_reports_unsaved_witness :
  status_of (fst (cadastrar_usuario calm disk_full (js "u1") ana three)) =
  Some 201 /\
  arquivo (store (snd (cadastrar_usuario calm disk_full (js "u1") ana three)))
  = [].
Proof.
  exact (cadastrar_usuario_reports_unsaved calm disk_full (js "u1") ana three
           abc (SystemError "ENOSPC") []
           eq_refl eq_refl abc_text_parses eq_refl eq_refl).
Defined.

(** The lock is held when the route wants to write. *)
Lemma cadastrar_usuario_locked_out_witness :
  fst (cadastrar_usuario calm busy (js "u1") ana three) =
  Normal (mkResponse 500 (Falha NaoFoiPossivelCadastrar)) /\
  arquivo (store (snd (cadastrar_usuario calm busy (js "u1") ana three))) =
  abc_text.
Proof.
  exact (cadastrar_usuario_locked_out calm busy (js "u1") ana three
           (or_intror eq_refl)).
Defined.


(** No record has the [id] [z]. *)
Lemma remover_usuario_not_found_witness :
  fst (remover_usuario calm calm (js "z") three) =
  Normal (mkResponse 404 (Falha UsuarioNaoEncontrado)) /\
  arquivo (store (snd (remover_usuario calm calm (js "z") three))) = abc_text.
Proof.
  apply (remover_usuario_not_found calm calm (js "z") three abc);
    try reflexivity.
  - exact abc_text_parses.
  - repeat (constructor; [reflexivity|]). constructor.
Defined.

(** The collection [[null]]. *)
Lemma remover_usuario_null_record_witness :
  fst (remover_usuario calm calm (js "a") with_null) =
  Normal (mkResponse 500 (Falha NaoFoiPossivelRemover)) /\
  arquivo (store (snd (remover_usuario calm calm (js "a") with_null))) =
  js "[null]".
Proof.
  exact (remover_usuario_null_record calm calm (js "a") with_null [JNull]
           eq_refl eq_refl with_null_parses (or_introl eq_refl)).
Defined.

(** The body of Ana on a record that has an [id] and a [nome]. *)
Lemma atualizar_campos_members_witness :
  exists members',
    atualizar_campos ana
      (JObj [(js "id", JStr (js "a")); (js "nome", JStr (js "Bia"))]) =
    JObj members' /\
    get_member (js "nome") members' = Some (JStr (js "Ana")) /\
    get_member (js "id") members' = Some (JStr (js "a")).
Proof.
  destruct (atualizar_campos_members ana
              [(js "id", JStr (js "a")); (js "nome", JStr (js "Bia"))])
    as [members' [Heq [Hgiven Hother]]].
  exists members'. split; [exact Heq|]. split.
  - rewrite (Hgiven (js "nome") (or_introl eq_refl)). reflexivity.
  - rewrite (Hother (js "id")); [reflexivity|].
    intros [H | [H | [H | H]]]; discriminate H.
Defined.

(** Updating [b] with the body of Ana. *)
Lemma atualizar_usuario_updates_witness :
  fst (atualizar_usuario calm calm (js "b") ana three) =
  Normal (mkResponse 200
            (Sucesso AtualizadoComExito (atualizar_campos ana (record "b"))))
  /\
  arquivo (store (snd (atualizar_usuario calm calm (js "b") ana three))) =
  JSON_stringify
    (JArr [record "a"; atualizar_campos ana (record "b"); record "c"]) 2 /\
  has_id (js "b") (atualizar_campos ana (record "b")).
Proof.
  apply (atualizar_usuario_updates calm calm (js "b") ana three
           [record "a"] (record "b") [record "c"]);
    try reflexivity.
  - exact abc_text_parses.
  - constructor; [reflexivity | constructor].
  - eexists; split; reflexivity.
Defined.

Lemma atualizar_usuario_not_found_witness :
  fst (atualizar_usuario calm calm (js "z") ana three) =
  Normal (mkResponse 404 (Falha UsuarioNaoEncontrado)) /\
  arquivo (store (snd (atualizar_usuario calm calm (js "z") ana three))) =
  abc_text.
Proof.
  apply (atualizar_usuario_not_found calm calm (js "z") ana three abc);
    try reflexivity.
  - exact abc_text_parses.
  - repeat (constructor; [reflexivity|]). constructor.
Defined.

(** A body that gives an empty name, the age 0 and no e-mail. *)
Lemma atualizar_usuario_ignores_falsy_witness :
  fst (atualizar_usuario calm calm (js "b") nothing_given three) =
  Normal (mkResponse 200 (Sucesso AtualizadoComExito (record "b"))) /\
  arquivo (store (snd (atualizar_usuario calm calm (js "b") nothing_given
                         three))) =
  JSON_stringify (JArr abc) 2.
Proof.
  apply (atualizar_usuario_ignores_falsy calm calm (js "b") nothing_given
           three [record "a"] (record "b") [record "c"]);
    try reflexivity.
  - exact abc_text_parses.
  - constructor; [reflexivity | constructor].
  - eexists; split; reflexivity.
  - intros k v [-> | [-> | [-> | ->]]] H; vm_compute in H;
      try discriminate H; injection H as <-; reflexivity.
Defined.

(** Removing [b] twice. *)
Lemma remover_usuario_twice_witness :
  fst (remover_usuario contended calm (js "b")
         (snd (remover_usuario calm calm (js "b") three))) =
  Normal (mkResponse 404 (Falha UsuarioNaoEncontrado)) /\
  arquivo
    (store (snd (remover_usuario contended calm (js "b")
                   (snd (remover_usuario calm calm (js "b") three))))) =
  JSON_stringify (JArr [record "a"; record "c"]) 2.
Proof.
  apply (remover_usuario_twice calm calm contended calm (js "b") three
           [record "a"] (record "b") [record "c"]);
    try reflexivity.
  - exact abc_text_parses.
  - constructor; [reflexivity | constructor].
  - eexists; split; reflexivity.
  - constructor; [discriminate | constructor].
  - split; [vm_compute; discriminate | vm_compute; reflexivity].
Defined.

(** Ana is created and removed: the three records are back. *)
Lemma cadastrar_then_remover_witness :
  fst (remover_usuario calm calm (js "u1")
         (snd (cadastrar_usuario calm calm (js "u1") ana three))) =
  Normal (mkResponse 200
            (Sucesso RemovidoComSucesso (novoUsuario (js "u1") ana))) /\
  arquivo
    (store (snd (remover_usuario calm calm (js "u1")
                   (snd (cadastrar_usuario calm calm (js "u1") ana three)))))
  = JSON_stringify (JArr abc) 2.
Proof.
  apply (cadastrar_then_remover calm calm calm calm (js "u1") ana three abc);
    try reflexivity.
  - exact abc_text_parses.
  - repeat (constructor; [reflexivity|]). constructor.
  - split; [vm_compute; discriminate | vm_compute; reflexivity].
Defined.
